(** * weather_analysis: validated summary of paired time / temperature series

    Shallow embedding of [src/weather_analysis.py].  The Python values the
    function can meet are an inductive type, raised exceptions are the
    [Raise] branch of a result type, and a float is an IEEE 754 binary64
    datum ([spec_float] with precision 53 and maximal exponent 1024). *)

From Stdlib Require Import List String Ascii Bool Arith ZArith QArith Qpower Lia.
From Stdlib Require Import DecimalString Permutation Sorted.
From Stdlib Require Import SpecFloat.
Import ListNotations.

Local Open Scope string_scope.
Local Open Scope list_scope.
Local Open Scope nat_scope.

(** ** Python values *)

(** [PyList], [PyTuple] and [PyStr] are sequences (length and integer
    indexing); [PySet] has a length but no indexing; [PyObject] stands for
    any other object (neither a length, nor indexing, nor a conversion to
    float) and carries the text [str()] gives for it.  Strings are ASCII
    text. *)
#[warnings="-register-all"]
Inductive pyval : Type :=
| PyNone
| PyBool (b : bool)
| PyInt (z : Z)
| PyFloat (f : spec_float)
| PyStr (s : string)
| PyList (xs : list pyval)
| PyTuple (xs : list pyval)
| PySet (xs : list pyval)
| PyObject (repr : string).

(** An f-string is kept as its fields in order: literal text and
    interpolated values. *)
Inductive fpart : Type :=
| FLit (s : string)
| FVal (v : pyval).

Definition message := list fpart.

Inductive exn : Type :=
| WeatherAnalysisError (msg : message)
| TypeError
| ValueError
| OverflowError
| IndexError
| ZeroDivisionError
| StatisticsError
| AttributeError.

Inductive pyresult (A : Type) : Type :=
| Ok (a : A)
| Raise (e : exn).

Arguments Ok {A} a.
Arguments Raise {A} e.

Definition bind {A B : Type} (m : pyresult A) (k : A -> pyresult B) : pyresult B :=
  match m with
  | Ok a => k a
  | Raise e => Raise e
  end.

Notation "x <- m ;; k" := (bind m (fun x => k))
  (at level 61, m at next level, right associativity).

(** [try: body except <handled>: raise replacement]. *)
Definition try_except {A : Type} (body : pyresult A) (handled : exn -> bool)
    (replacement : exn) : pyresult A :=
  match body with
  | Ok a => Ok a
  | Raise e => if handled e then Raise replacement else Raise e
  end.

Definition is_TypeError (e : exn) : bool :=
  match e with TypeError => true | _ => false end.

Definition is_TypeError_or_ValueError (e : exn) : bool :=
  match e with TypeError | ValueError => true | _ => false end.

Definition is_none (v : pyval) : bool :=
  match v with PyNone => true | _ => false end.

(** ** Floats *)

(** A Python float is a [spec_float] that is valid for [prec] and [emax];
    the results below hold for every [spec_float]. *)

Definition prec : Z := 53.
Definition emax : Z := 1024.

Definition float_of_Z (z : Z) : spec_float := binary_normalize prec emax z 0 false.

Definition is_nan (f : spec_float) : bool :=
  match f with S754_nan => true | _ => false end.

Definition is_infinite (f : spec_float) : bool :=
  match f with S754_infinity _ => true | _ => false end.

(** Python's [<], [>], [==] on floats. *)
Definition float_lt (a b : spec_float) : bool := SFltb a b.
Definition float_gt (a b : spec_float) : bool := SFltb b a.
Definition float_eq (a b : spec_float) : bool := SFeqb a b.
Definition float_le (a b : spec_float) : bool := SFleb a b.

(** *** Reading a float from text: [float(str)] *)

Definition is_space (c : ascii) : bool :=
  let n := nat_of_ascii c in ((9 <=? n) && (n <=? 13)) || (n =? 32).

Definition is_digit (c : ascii) : bool :=
  let n := nat_of_ascii c in (48 <=? n) && (n <=? 57).

Definition is_underscore (c : ascii) : bool := nat_of_ascii c =? 95.

Definition lower (c : ascii) : ascii :=
  let n := nat_of_ascii c in
  if (65 <=? n) && (n <=? 90) then ascii_of_nat (n + 32) else c.

(** Underscores are dropped; each must stand between two digits. *)
Fixpoint strip_underscores (prev : ascii) (s : list ascii) : option (list ascii) :=
  match s with
  | [] => if is_underscore prev then None else Some []
  | c :: s' =>
      if is_underscore c then
        if is_digit prev then strip_underscores c s' else None
      else if is_underscore prev && negb (is_digit c) then None
      else option_map (cons c) (strip_underscores c s')
  end.

Fixpoint drop_spaces (s : list ascii) : list ascii :=
  match s with
  | c :: s' => if is_space c then drop_spaces s' else s
  | [] => []
  end.

Definition strip (s : list ascii) : list ascii :=
  rev (drop_spaces (rev (drop_spaces s))).

Fixpoint span_digits (s : list ascii) : list ascii * list ascii :=
  match s with
  | c :: s' =>
      if is_digit c then let '(ds, r) := span_digits s' in (c :: ds, r)
      else ([], s)
  | [] => ([], [])
  end.

Definition digits_value (ds : list ascii) : Z :=
  fold_left (fun acc c => (10 * acc + (Z.of_nat (nat_of_ascii c) - 48))%Z) ds 0%Z.

Definition parse_sign (s : list ascii) : bool * list ascii :=
  match s with
  | "-"%char :: r => (true, r)
  | "+"%char :: r => (false, r)
  | _ => (false, s)
  end.

Definition parse_exponent (s : list ascii) : option Z :=
  match s with
  | [] => Some 0%Z
  | c :: r =>
      if Ascii.eqb (lower c) "e" then
        let '(neg, r1) := parse_sign r in
        match span_digits r1 with
        | ((_ :: _) as ds, []) =>
            Some (if neg then (- digits_value ds)%Z else digits_value ds)
        | _ => None
        end
      else None
  end.

(** The binary64 nearest to [d * 10^e] (ties to even), [d >= 0]. *)
Definition decimal_to_float (neg : bool) (d e : Z) : spec_float :=
  match d with
  | Zpos p =>
      if (0 <=? e)%Z then
        binary_normalize prec emax ((if neg then Z.opp else id) (d * 10 ^ e)%Z) 0 false
      else
        SFdiv prec emax (S754_finite neg p 0)
          (S754_finite false (Z.to_pos (10 ^ (- e))) 0)
  | _ => S754_zero neg
  end.

Definition parse_float (s : list ascii) : option spec_float :=
  let '(neg, s1) := parse_sign s in
  let word := string_of_list_ascii (map lower s1) in
  if String.eqb word "inf" || String.eqb word "infinity" then Some (S754_infinity neg)
  else if String.eqb word "nan" then Some S754_nan
  else
    let '(ip, s2) := span_digits s1 in
    let '(fp, s3) :=
      match s2 with
      | "."%char :: r => span_digits r
      | _ => ([], s2)
      end in
    match ip ++ fp with
    | [] => None
    | ds =>
        match parse_exponent s3 with
        | Some ex => Some (decimal_to_float neg (digits_value ds) (ex - Z.of_nat (List.length fp)))
        | None => None
        end
    end.

Definition float_of_string (s : string) : option spec_float :=
  match strip_underscores zero (list_ascii_of_string s) with
  | Some s' => parse_float (strip s')
  | None => None
  end.

(** ** Builtins *)

(** [float(x)]: TypeError on an object that is neither a number nor a
    string, ValueError on text that is not a number, OverflowError on an
    integer beyond the float range. *)
Definition py_float (x : pyval) : pyresult spec_float :=
  match x with
  | PyFloat f => Ok f
  | PyBool b => Ok (float_of_Z (if b then 1 else 0))
  | PyInt z =>
      let f := float_of_Z z in
      if is_infinite f then Raise OverflowError else Ok f
  | PyStr s =>
      match float_of_string s with
      | Some f => Ok f
      | None => Raise ValueError
      end
  | _ => Raise TypeError
  end.

(** [len(x)]. *)
Definition py_len (x : pyval) : pyresult nat :=
  match x with
  | PyStr s => Ok (String.length s)
  | PyList xs | PyTuple xs | PySet xs => Ok (List.length xs)
  | _ => Raise TypeError
  end.

(** [x[i]] for an index [i >= 0]. *)
Definition py_getitem (x : pyval) (i : nat) : pyresult pyval :=
  match x with
  | PyStr s =>
      match String.get i s with
      | Some c => Ok (PyStr (String c EmptyString))
      | None => Raise IndexError
      end
  | PyList xs | PyTuple xs =>
      match nth_error xs i with
      | Some v => Ok v
      | None => Raise IndexError
      end
  | _ => Raise TypeError
  end.

(** [xs[i]] on a list of any element type. *)
Definition list_getitem {A : Type} (xs : list A) (i : nat) : pyresult A :=
  match nth_error xs i with
  | Some v => Ok v
  | None => Raise IndexError
  end.

(** One step of [min] and [max]: [item] replaces the candidate [best] when
    the test [better item best] holds. *)
Definition choose (better : spec_float -> spec_float -> bool)
    (best item : spec_float) : spec_float :=
  if better item best then item else best.

(** [min(l)]: the first item is the candidate, a later item replaces it
    when it is strictly smaller. *)
Definition py_min (l : list spec_float) : pyresult spec_float :=
  match l with
  | [] => Raise ValueError
  | x :: l' => Ok (fold_left (choose float_lt) l' x)
  end.

(** [max(l)]: as [min], with [>]. *)
Definition py_max (l : list spec_float) : pyresult spec_float :=
  match l with
  | [] => Raise ValueError
  | x :: l' => Ok (fold_left (choose float_gt) l' x)
  end.

(** The test [list.index] applies to each item: the same object, or an
    equal one.  Floats carry no identity here; two NaN count as the same
    object, which is what happens in [analyze_time_series]: [min] and [max]
    return a NaN only when it is the first item of the list. *)
Definition same_or_equal (item x : spec_float) : bool :=
  (is_nan item && is_nan x) || float_eq item x.

(** [l.index(x)]. *)
Fixpoint list_index (x : spec_float) (l : list spec_float) : pyresult nat :=
  match l with
  | [] => Raise ValueError
  | item :: l' =>
      if same_or_equal item x then Ok 0
      else i <- list_index x l' ;; Ok (S i)
  end.

(** [sum(l)] on floats, added left to right from zero (CPython up to 3.11;
    later versions compensate the rounding error of the additions, which
    can change the last bits of the sum). *)
Definition py_sum (l : list spec_float) : spec_float :=
  fold_left (SFadd prec emax) l (S754_zero false).

(** [x / n] for a float [x] and an integer [n]. *)
Definition float_div_int (x : spec_float) (n : nat) : pyresult spec_float :=
  if n =? 0 then Raise ZeroDivisionError
  else Ok (SFdiv prec emax x (float_of_Z (Z.of_nat n))).

(** ** The list sort

    [sorted] copies the data to a list and sorts it with [list.sort]
    (CPython, Objects/listobject.c).  On a list of fewer than 64 items the
    sort finds the run the list starts with ([count_run]), reverses it when
    it is a descending one, and inserts the remaining items one at a time
    at the place a binary search gives ([binarysort]); that is what is
    modelled.  From 64 items on CPython sorts pieces in this way and merges
    them: on data without NaN the outcome is the same list, the sort being
    stable; lists of 64 or more items that hold a NaN are outside the
    model. *)

(** The items of [rest] that continue the run ending in [prev]: each one
    smaller than the one before it in a descending run, not smaller in an
    ascending one. *)
Fixpoint run_rest (descending : bool) (prev : spec_float) (rest : list spec_float) : nat :=
  match rest with
  | [] => 0
  | x :: rest' =>
      if Bool.eqb (float_lt x prev) descending then S (run_rest descending x rest')
      else 0
  end.

(** [count_run]: the length of the run at the head of the list, and whether
    it is descending. *)
Definition count_run (l : list spec_float) : nat * bool :=
  match l with
  | x :: y :: rest =>
      let descending := float_lt y x in
      (2 + run_rest descending y rest, descending)
  | _ => (List.length l, false)
  end.

(** The binary search of [binarysort]: the place of [pivot] in
    [items[l:r]]; the distance of [l] and [r] at least halves with every
    step, [fuel] bounds the number of steps. *)
Fixpoint search (fuel : nat) (pivot : spec_float) (items : list spec_float) (l r : nat)
    : nat :=
  match fuel with
  | 0 => l
  | S fuel' =>
      if l <? r then
        let p := l + (r - l) / 2 in
        if float_lt pivot (nth p items pivot) then search fuel' pivot items l p
        else search fuel' pivot items (p + 1) r
      else l
  end.

(** One pass of the outer loop of [binarysort]: [pivot] goes to its place
    among the items before it. *)
Definition binary_insert (items : list spec_float) (pivot : spec_float) : list spec_float :=
  let l := search (List.length items) pivot items 0 (List.length items) in
  firstn l items ++ pivot :: skipn l items.

Definition binarysort (items rest : list spec_float) : list spec_float :=
  fold_left binary_insert rest items.

(** [sorted(l)]. *)
Definition sorted (l : list spec_float) : list spec_float :=
  let '(n, descending) := count_run l in
  let run := firstn n l in
  binarysort (if descending then rev run else run) (skipn n l).

(** ** The statistics module

    [median] and [stdev] as CPython 3.11 has them (Lib/statistics.py), on
    lists of floats. *)

(** [statistics.median]: the middle item of the sorted data, or the mean
    of the two middle items. *)
Definition statistics_median (data : list spec_float) : pyresult spec_float :=
  let data := sorted data in
  let n := List.length data in
  if n =? 0 then Raise StatisticsError
  else if n mod 2 =? 1 then list_getitem data (n / 2)
  else
    let i := n / 2 in
    a <- list_getitem data (i - 1) ;;
    b <- list_getitem data i ;;
    float_div_int (SFadd prec emax a b) 2.

(** [float.as_integer_ratio]: numerator and denominator in lowest terms;
    OverflowError on an infinity, ValueError on a NaN. *)
Definition as_integer_ratio (x : spec_float) : pyresult Q :=
  match x with
  | S754_zero _ => Ok 0%Q
  | S754_finite s m e =>
      let n := if s then Zneg m else Zpos m in
      Ok (Qred match e with
               | Zneg k => Qmake n (2 ^ k)
               | _ => inject_Z (n * 2 ^ e)
               end)
  | S754_infinity _ => Raise OverflowError
  | S754_nan => Raise ValueError
  end.

(** [_exact_ratio]: the pair [(n, d)] of a finite float, or the pair
    [(x, None)] of an infinity or a NaN, here [inr x]. *)
Definition _exact_ratio (x : spec_float) : Q + spec_float :=
  match as_integer_ratio x with
  | Ok q => inl q
  | Raise _ => inr x
  end.

(** A dictionary of partial sums keyed by denominator: the integer sums
    under the denominators in the order they came up, and the float sum
    under the key [None] once an infinity or a NaN has come up. *)
Record partials : Type := {
  by_denominator : list (positive * Z);
  under_None : option spec_float
}.

Definition no_partials : partials := {| by_denominator := []; under_None := None |}.

(** [partials[d] += n] for a denominator [d]. *)
Fixpoint add_to (d : positive) (n : Z) (p : list (positive * Z)) : list (positive * Z) :=
  match p with
  | [] => [(d, n)]
  | (d', n') :: rest =>
      if Pos.eqb d d' then (d', (n' + n)%Z) :: rest else (d', n') :: add_to d n rest
  end.

(** [partials[None] += x] for a float [x]; the entry starts from the
    integer 0. *)
Definition add_float (x : spec_float) (p : option spec_float) : option spec_float :=
  match p with
  | None => Some (SFadd prec emax (float_of_Z 0) x)
  | Some t => Some (SFadd prec emax t x)
  end.

(** One pass of the loop of [_ss] over the data: both dictionaries
    updated with the ratio of [x]. *)
Definition ss_step (acc : partials * partials) (x : spec_float) : partials * partials :=
  let '(sx_partials, sxx_partials) := acc in
  match _exact_ratio x with
  | inl q =>
      ({| by_denominator := add_to (Qden q) (Qnum q) (by_denominator sx_partials);
          under_None := under_None sx_partials |},
       {| by_denominator := add_to (Qden q) (Qnum q * Qnum q) (by_denominator sxx_partials);
          under_None := under_None sxx_partials |})
  | inr x =>
      ({| by_denominator := by_denominator sx_partials;
          under_None := add_float x (under_None sx_partials) |},
       {| by_denominator := by_denominator sxx_partials;
          under_None := add_float (SFmul prec emax x x) (under_None sxx_partials) |})
  end.

(** [sum(Fraction(n, d) for d, n in partials.items())], and the same with
    [d*d].  A [Fraction] is exact and kept in lowest terms; its value is
    computed in [Q] here and reduced where numerator and denominator are
    read. *)
Definition sum_fractions (square : bool) (p : list (positive * Z)) : Q :=
  fold_left (fun acc '(d, n) => (acc + Qmake n (if square then d * d else d))%Q) p 0%Q.

(** [_ss(data)] without a given mean: the sum of the squared deviations
    from the mean, exact on finite data and a float once an infinity or a
    NaN is among them, and the number of data. *)
Definition _ss (data : list spec_float) : (Q + spec_float) * nat :=
  let count := List.length data in
  let '(sx_partials, sxx_partials) := fold_left ss_step data (no_partials, no_partials) in
  if count =? 0 then (inl 0%Q, count)
  else
    match under_None sx_partials with
    | Some total => (inr total, count)
    | None =>
        let sx := sum_fractions false (by_denominator sx_partials) in
        let sxx := sum_fractions true (by_denominator sxx_partials) in
        let n := inject_Z (Z.of_nat count) in
        (inl ((n * sxx - sx * sx) / n)%Q, count)
    end.

(** [int.bit_length]. *)
Definition bit_length (z : Z) : Z := Zdigits2 z.

(** [math.isqrt]. *)
Definition isqrt (z : Z) : pyresult Z :=
  if (z <? 0)%Z then Raise ValueError else Ok (Z.sqrt z).

(** [a / b] on integers: the float nearest to the quotient, OverflowError
    when that is beyond the float range. *)
Definition int_truediv (a b : Z) : pyresult spec_float :=
  match b with
  | Z0 => Raise ZeroDivisionError
  | _ =>
      let negate := xorb (a <? 0)%Z (b <? 0)%Z in
      match a with
      | Z0 => Ok (S754_zero negate)
      | _ =>
          let f := SFdiv prec emax (S754_finite (a <? 0)%Z (Z.to_pos (Z.abs a)) 0)
                     (S754_finite (b <? 0)%Z (Z.to_pos (Z.abs b)) 0) in
          match f with
          | S754_infinity _ => Raise OverflowError
          | _ => Ok f
          end
      end
  end.

(** [_integer_sqrt_of_frac_rto]: the square root of [n/m] as an integer,
    rounded to odd. *)
Definition _integer_sqrt_of_frac_rto (n m : Z) : pyresult Z :=
  a <- isqrt (n / m) ;;
  Ok (Z.lor a (if (a * a * m =? n)%Z then 0 else 1)).

Definition _sqrt_bit_width : Z := 2 * prec + 3.

(** [_float_sqrt_of_frac]: the square root of [n/m] as a float. *)
Definition _float_sqrt_of_frac (n m : Z) : pyresult spec_float :=
  let q := ((bit_length n - bit_length m - _sqrt_bit_width) / 2)%Z in
  if (0 <=? q)%Z then
    r <- _integer_sqrt_of_frac_rto n (Z.shiftl m (2 * q)) ;;
    int_truediv (Z.shiftl r q) 1
  else
    r <- _integer_sqrt_of_frac_rto (Z.shiftl n (-2 * q)) m ;;
    int_truediv r (Z.shiftl 1 (- q)).

(** [statistics.stdev(data)].  On data with an infinity or a NaN [mss] is a
    float, which has no attribute [numerator]. *)
Definition statistics_stdev (data : list spec_float) : pyresult spec_float :=
  let '(ss, n) := _ss data in
  if n <? 2 then Raise StatisticsError
  else
    match ss with
    | inr _ => Raise AttributeError
    | inl ss =>
        let mss := Qred (ss / inject_Z (Z.of_nat (n - 1))) in
        _float_sqrt_of_frac (Qnum mss) (Zpos (Qden mss))
    end.

(** ** weather_analysis.py *)

Definition calculate_median (temperatures : list spec_float)
    : pyresult (option spec_float) :=
  match temperatures with
  | [] => Ok None
  | _ => m <- statistics_median temperatures ;; Ok (Some m)
  end.

Definition calculate_standard_deviation (temperatures : list spec_float)
    : pyresult (option spec_float) :=
  match temperatures with
  | [] => Ok None
  | _ =>
      if List.length temperatures <? 2 then Ok None
      else s <- statistics_stdev temperatures ;; Ok (Some s)
  end.

(** The dictionary [analyze_time_series] returns. *)
Record result : Type := {
  median : option spec_float;
  stddev : option spec_float;
  min : spec_float;
  min_time : pyval;
  max : spec_float;
  max_time : pyval;
  average : spec_float;
  truncated : bool;
  warnings : list message;
  count : nat
}.

Definition py_int (n : nat) : pyval := PyInt (Z.of_nat n).

Definition missing_msg : message :=
  [FLit "Both 'times' and 'temperatures' must be provided."].

Definition not_sequences_msg : message :=
  [FLit "'times' and 'temperatures' must be sequences (e.g., lists)."].

Definition empty_msg : message :=
  [FLit "'times' and 'temperatures' must not be empty."].

Definition length_mismatch_msg (len_times len_temps : nat) : message :=
  [FLit "Input lengths differ: times="; FVal (py_int len_times);
   FLit ", temperatures="; FVal (py_int len_temps);
   FLit "; truncated to shorter length."].

Definition invalid_temperature_msg (i : nat) (temp : pyval) : message :=
  [FLit "Invalid temperature value at index "; FVal (py_int i);
   FLit ": "; FVal temp].

Definition skipped_msg (skipped_pairs : nat) : message :=
  [FLit "Skipped "; FVal (py_int skipped_pairs);
   FLit " pair(s) where time or temperature was missing."].

Definition no_valid_pairs_msg : message :=
  [FLit "No valid time/temperature pairs available after validation."].

(** [str(v)] for the values whose text needs no float formatting; [None]
    for a float or a container. *)
Definition py_str (v : pyval) : option string :=
  match v with
  | PyNone => Some "None"
  | PyBool b => Some (if b then "True" else "False")
  | PyInt z => Some (NilZero.string_of_int (Z.to_int z))
  | PyStr s => Some s
  | PyObject repr => Some repr
  | _ => None
  end.

(** The text of an f-string, when every interpolated value has one. *)
Fixpoint render (msg : message) : option string :=
  match msg with
  | [] => Some ""
  | FLit s :: rest => option_map (String.append s) (render rest)
  | FVal v :: rest =>
      match py_str v, render rest with
      | Some s, Some r => Some (String.append s r)
      | _, _ => None
      end
  end.

(** The variables the validation loop updates. *)
Record loop_state : Type := {
  valid_times : list pyval;
  valid_temps : list spec_float;
  skipped_pairs : nat
}.

Definition loop_init : loop_state :=
  {| valid_times := []; valid_temps := []; skipped_pairs := 0 |}.

(** One pass through the body of [for i in range(effective_length)]. *)
Definition loop_body (times temperatures : pyval) (i : nat) (st : loop_state)
    : pyresult loop_state :=
  t <- py_getitem times i ;;
  temp <- py_getitem temperatures i ;;
  if is_none t || is_none temp then
    Ok {| valid_times := valid_times st;
          valid_temps := valid_temps st;
          skipped_pairs := skipped_pairs st + 1 |}
  else
    ftemp <- try_except (py_float temp) is_TypeError_or_ValueError
               (WeatherAnalysisError (invalid_temperature_msg i temp)) ;;
    Ok {| valid_times := valid_times st ++ [t];
          valid_temps := valid_temps st ++ [ftemp];
          skipped_pairs := skipped_pairs st |}.

Fixpoint for_each {S : Type} (body : nat -> S -> pyresult S) (indices : list nat)
    (st : S) : pyresult S :=
  match indices with
  | [] => Ok st
  | i :: rest => st' <- body i st ;; for_each body rest st'
  end.

(** The validation loop, from its initial state. *)
Definition validate_pairs (times temperatures : pyval) (effective_length : nat)
    : pyresult loop_state :=
  for_each (loop_body times temperatures) (seq 0 effective_length) loop_init.

(** Everything after the validation loop. *)
Definition summarize (truncated : bool) (warnings : list message) (st : loop_state)
    : pyresult result :=
  let warnings :=
    if negb (skipped_pairs st =? 0) then warnings ++ [skipped_msg (skipped_pairs st)]
    else warnings in
  match valid_temps st with
  | [] => Raise (WeatherAnalysisError no_valid_pairs_msg)
  | _ =>
      median_temp <- calculate_median (valid_temps st) ;;
      stddev_temp <- calculate_standard_deviation (valid_temps st) ;;
      min_temp <- py_min (valid_temps st) ;;
      max_temp <- py_max (valid_temps st) ;;
      min_index <- list_index min_temp (valid_temps st) ;;
      max_index <- list_index max_temp (valid_temps st) ;;
      min_temp_time <- list_getitem (valid_times st) min_index ;;
      max_temp_time <- list_getitem (valid_times st) max_index ;;
      average <- float_div_int (py_sum (valid_temps st)) (List.length (valid_temps st)) ;;
      Ok {| median := median_temp;
            stddev := stddev_temp;
            min := min_temp;
            min_time := min_temp_time;
            max := max_temp;
            max_time := max_temp_time;
            average := average;
            truncated := truncated;
            warnings := warnings;
            count := List.length (valid_temps st) |}
  end.

Definition analyze_time_series (times temperatures : pyval) : pyresult result :=
  if is_none times || is_none temperatures then
    Raise (WeatherAnalysisError missing_msg)
  else
    lens <- try_except
              (len_times <- py_len times ;;
               len_temps <- py_len temperatures ;;
               Ok (len_times, len_temps))
              is_TypeError (WeatherAnalysisError not_sequences_msg) ;;
    let '(len_times, len_temps) := lens in
    if (len_times =? 0) || (len_temps =? 0) then
      Raise (WeatherAnalysisError empty_msg)
    else
      let '(truncated, warnings) :=
        if negb (len_times =? len_temps) then
          (true, [length_mismatch_msg len_times len_temps])
        else (false, []) in
      let effective_length := Nat.min len_times len_temps in
      st <- validate_pairs times temperatures effective_length ;;
      summarize truncated warnings st.

(** ** Vocabulary of the specification *)

Definition char_item (c : ascii) : pyval := PyStr (String c EmptyString).

(** The items of a proper sequence; [None] for anything else. *)
Definition seq_items (v : pyval) : option (list pyval) :=
  match v with
  | PyList xs | PyTuple xs => Some xs
  | PyStr s => Some (map char_item (list_ascii_of_string s))
  | _ => None
  end.

(** A pair with neither side missing. *)
Definition present (p : pyval * pyval) : bool :=
  negb (is_none (fst p) || is_none (snd p)).

(** [float()] returns a number on [v]. *)
Definition coercible (v : pyval) : bool :=
  match py_float v with
  | Ok _ => true
  | Raise _ => false
  end.

Definition coerces_to (v : pyval) (f : spec_float) : Prop := py_float v = Ok f.

(** The aligned pairs that survive the null filter, in input order, and
    the number of those that do not. *)
Definition surviving (pairs : list (pyval * pyval)) : list (pyval * pyval) :=
  filter present pairs.

Definition skipped_count (pairs : list (pyval * pyval)) : nat :=
  List.length (filter (fun p => negb (present p)) pairs).

(** Every pair that survives the null filter has a temperature [float()]
    accepts. *)
Definition all_coercible (pairs : list (pyval * pyval)) : Prop :=
  Forall (fun p => present p = true -> coercible (snd p) = true) pairs.

Definition effective_length (times temperatures : pyval) : nat :=
  match py_len times, py_len temperatures with
  | Ok len_times, Ok len_temps => Nat.min len_times len_temps
  | _, _ => 0
  end.

(** The state the validation loop ends in on the given arguments. *)
Definition validated (times temperatures : pyval) : pyresult loop_state :=
  validate_pairs times temperatures (effective_length times temperatures).

(** What one pass of the loop does once [t] and [temp] are read. *)
Definition process_pair (i : nat) (t temp : pyval) (st : loop_state)
    : pyresult loop_state :=
  if is_none t || is_none temp then
    Ok {| valid_times := valid_times st;
          valid_temps := valid_temps st;
          skipped_pairs := skipped_pairs st + 1 |}
  else
    ftemp <- try_except (py_float temp) is_TypeError_or_ValueError
               (WeatherAnalysisError (invalid_temperature_msg i temp)) ;;
    Ok {| valid_times := valid_times st ++ [t];
          valid_temps := valid_temps st ++ [ftemp];
          skipped_pairs := skipped_pairs st |}.

(** The loop seen as a traversal of the aligned pairs, [i] being the index
    of the first of them. *)
Fixpoint scan_pairs (i : nat) (pairs : list (pyval * pyval)) (st : loop_state)
    : pyresult loop_state :=
  match pairs with
  | [] => Ok st
  | (t, temp) :: rest => st' <- process_pair i t temp st ;; scan_pairs (S i) rest st'
  end.

(** The warnings a successful call carries, from the two lengths and the
    number of skipped pairs. *)
Definition expected_warnings (len_times len_temps skipped : nat) : list message :=
  (if len_times =? len_temps then [] else [length_mismatch_msg len_times len_temps])
  ++ (if skipped =? 0 then [] else [skipped_msg skipped]).

Definition is_minimum (m : spec_float) (l : list spec_float) : Prop :=
  In m l /\ forall x, In x l -> float_le m x = true.

Definition is_maximum (m : spec_float) (l : list spec_float) : Prop :=
  In m l /\ forall x, In x l -> float_le x m = true.

(** [i] is the first position of [l] holding [m]. *)
Definition first_at (m : spec_float) (l : list spec_float) (i : nat) : Prop :=
  nth_error l i = Some m /\
  forall j y, j < i -> nth_error l j = Some y -> float_eq y m = false.


Definition no_nan (l : list spec_float) : Prop :=
  Forall (fun f => is_nan f = false) l.


(** The exact value of a finite float; an infinity or a NaN has none. *)
Definition float_value (f : spec_float) : option Q :=
  match f with
  | S754_zero _ => Some 0%Q
  | S754_finite s m e =>
      let n := if s then Zneg m else Zpos m in
      Some match e with
           | Zneg k => Qmake n (2 ^ k)
           | _ => inject_Z (n * 2 ^ e)
           end
  | _ => None
  end.

Fixpoint float_values (data : list spec_float) : option (list Q) :=
  match data with
  | [] => Some []
  | f :: data' =>
      match float_value f, float_values data' with
      | Some q, Some qs => Some (q :: qs)
      | _, _ => None
      end
  end.

Definition Qsum (qs : list Q) : Q := fold_right Qplus 0%Q qs.

(** The sample variance as the specification words it, with Bessel's
    correction: the squared deviations from the mean, summed and divided
    by [n - 1]. *)
Definition sample_variance (qs : list Q) : Q :=
  let n := inject_Z (Z.of_nat (List.length qs)) in
  let mean := (Qsum qs / n)%Q in
  (Qsum (map (fun x => (x - mean) * (x - mean))%Q qs) / (n - 1))%Q.



(** Two results with the same statistics: every field but [truncated] and
    [warnings]. *)
Definition same_statistics (r r' : result) : Prop :=
  median r = median r' /\ stddev r = stddev r' /\
  min r = min r' /\ min_time r = min_time r' /\
  max r = max r' /\ max_time r = max_time r' /\
  average r = average r' /\ count r = count r'.

(** A temperature converted beforehand: the float [float()] gives for it,
    or the value itself when [float()] rejects it. *)
Definition as_float (temp : pyval) : pyval :=
  match py_float temp with
  | Ok f => PyFloat f
  | Raise _ => temp
  end.

(** ** analyzer.py and main.py *)

(** The numbers are floats, as [main] builds them with [float(input())]. *)
Module analyzer.

(** The dictionary [analyze_numbers] returns. *)
Record summary : Type := {
  total : spec_float;
  count : nat;
  average : spec_float;
  min : spec_float;
  max : spec_float
}.

(** [analyze_numbers], the same in analyzer.py and in main.py. *)
Definition analyze_numbers (numbers : list spec_float) : pyresult (option summary) :=
  match numbers with
  | [] => Ok None
  | _ =>
      let total := py_sum numbers in
      let count := List.length numbers in
      average <- float_div_int total count ;;
      minimum <- py_min numbers ;;
      maximum <- py_max numbers ;;
      Ok (Some {| total := total;
                  count := count;
                  average := average;
                  min := minimum;
                  max := maximum |})
  end.

End analyzer.

(** What is written to standard output, in order: text, [str()] of a
    value, and a float formatted with [:.2f]. *)
Inductive out_part : Type :=
| OText (s : string)
| OValue (v : pyval)
| OFixed2 (f : spec_float).

(** What ends a run early: end of input, or an exception that nothing
    catches ([.get] on None raises AttributeError). *)
Inductive failure : Type :=
| EOFError
| Uncaught (e : exn).

Definition newline : string := String (ascii_of_nat 10) EmptyString.

(** [print(...)]: the parts, then the line end. *)
Definition print (parts : list out_part) : list out_part :=
  parts ++ [OText newline].

(** The five statistics lines, shared by [print_report] and [main]. *)
Definition statistics_lines (res : analyzer.summary) : list out_part :=
  print [OText "Total: "; OValue (PyFloat (analyzer.total res))]
  ++ print [OText "Count: "; OValue (py_int (analyzer.count res))]
  ++ print [OText "Average: "; OFixed2 (analyzer.average res)]
  ++ print [OText "Minimum: "; OValue (PyFloat (analyzer.min res))]
  ++ print [OText "Maximum: "; OValue (PyFloat (analyzer.max res))].

(** What [print_report] writes before it reads [results]. *)
Definition report_header (numbers : list spec_float) : list out_part :=
  print [OText (newline ++ "Analysis Report")]
  ++ print [OText "----------------"]
  ++ print [OText "Numbers Entered:"]
  ++ flat_map (fun num => [OValue (PyFloat num); OText " "]) numbers
  ++ print []
  ++ print [OText (newline ++ "Statistics:")].

(** [print_report] of analyzer.py, for [results] as [analyze_numbers]
    returns it: None or the dictionary.  The output, and what ended the
    call if it did not return. *)
Definition print_report (numbers : list spec_float) (results : option analyzer.summary)
    : list out_part * option failure :=
  match results with
  | None => (report_header numbers, Some (Uncaught AttributeError))
  | Some res => (report_header numbers ++ statistics_lines res, None)
  end.

(** [int(s)] on text: surrounding whitespace, a sign, digits with single
    underscores between them, at most 4300 digits (the default limit). *)
Definition int_of_string (s : string) : option Z :=
  let '(neg, body) := parse_sign (strip (list_ascii_of_string s)) in
  match strip_underscores zero body with
  | Some ((_ :: _) as ds) =>
      if forallb is_digit ds && (List.length ds <=? 4300) then
        Some (if neg then (- digits_value ds)%Z else digits_value ds)
      else None
  | _ => None
  end.

(** A run of [main]: its value or what ended it, the lines left on
    standard input, and standard output. *)
Definition io (A : Type) : Type := (A + failure) * list string * list out_part.

Definition prompt_count : string := "How many numbers would you like to enter?: ".

Definition prompt_positive : string :=
  "Please enter a positive integer for how many numbers you'd like to enter: ".

(** The first [while True] of [main], entered with the current [count]. *)
Fixpoint ask_positive (count : Z) (lines : list string) (out : list out_part) : io Z :=
  if (0 <? count)%Z then (inl count, lines, out)
  else
    let out := out ++ [OText prompt_positive] in
    match lines with
    | [] => (inr EOFError, [], out)
    | line :: rest =>
        match int_of_string line with
        | Some c =>
            ask_positive c rest
              (if (c <=? 0)%Z
               then out ++ print [OText "Please enter a number greater than 0."]
               else out)
        | None =>
            ask_positive count rest
              (out ++ print [OText "Invalid input. Please enter a whole number."])
        end
    end.

(** The inner [while True]: ask for number [i + 1] until a line is a
    float. *)
Fixpoint read_number (i : nat) (lines : list string) (out : list out_part)
    : io spec_float :=
  let out := out ++ [OText "Enter number "; OValue (py_int (i + 1)); OText ": "] in
  match lines with
  | [] => (inr EOFError, [], out)
  | line :: rest =>
      match float_of_string line with
      | Some num => (inl num, rest, out)
      | None =>
          read_number i rest
            (out ++ print [OText "Invalid input. Please enter a valid number."])
      end
  end.

(** [for i in range(count)], with [n] passes left and [i] the current
    index. *)
Fixpoint read_numbers (n i : nat) (numbers : list spec_float) (lines : list string)
    (out : list out_part) : io (list spec_float) :=
  match n with
  | 0 => (inl numbers, lines, out)
  | S n' =>
      match read_number i lines out with
      | (inl num, rest, out') => read_numbers n' (S i) (numbers ++ [num]) rest out'
      | (inr f, rest, out') => (inr f, rest, out')
      end
  end.

(** [main] up to the end of the [for] loop: the numbers entered. *)
Definition collect (lines : list string) : io (list spec_float) :=
  let out := [OText prompt_count] in
  match lines with
  | [] => (inr EOFError, [], out)
  | line :: rest =>
      match int_of_string line with
      | None => (inr (Uncaught ValueError), rest, out)
      | Some count =>
          match ask_positive count rest out with
          | (inl count, rest, out) => read_numbers (Z.to_nat count) 0 [] rest out
          | (inr f, rest, out) => (inr f, rest, out)
          end
      end
  end.

(** The rest of [main]: echo the numbers, then the statistics. *)
Definition report (numbers : list spec_float) : list out_part * option failure :=
  let out :=
    print [OText "You entered the following numbers:"]
    ++ flat_map (fun num => [OValue (PyFloat num); OText " "] ++ print []) numbers in
  match analyzer.analyze_numbers numbers with
  | Raise e => (out, Some (Uncaught e))
  | Ok (Some res) =>
      (out ++ print [OText (newline ++ "Statistics:")] ++ statistics_lines res, None)
  | Ok None => (out ++ print [OText "No numbers to analyze."], None)
  end.

Definition main (lines : list string) : io unit :=
  match collect lines with
  | (inl numbers, rest, out) =>
      match report numbers with
      | (out', None) => (inl tt, rest, out ++ out')
      | (out', Some f) => (inr f, rest, out ++ out')
      end
  | (inr f, rest, out) => (inr f, rest, out)
  end.

(** The floats among the lines, in order. *)
Definition parsed_floats (lines : list string) : list spec_float :=
  flat_map (fun line => match float_of_string line with
                        | Some f => [f]
                        | None => []
                        end) lines.

(** A line the first loop of [main] passes over: not an integer, or not a
    positive one. *)
Definition not_positive (line : string) : bool :=
  match int_of_string line with
  | Some c => (c <=? 0)%Z
  | None => true
  end.

(** Case analysis on floats, down to the comparisons of their exponents
    and mantissas. *)
Ltac float_cases :=
  unfold float_lt, float_gt, float_le, float_eq, SFltb, SFleb, SFeqb, SFcompare, is_nan;
  repeat match goal with
         | x : spec_float |- _ => destruct x as [[] | [] | | [] ? ?]
         end;
  simpl; try discriminate; try reflexivity; try congruence;
  repeat match goal with
         | |- context [(?a ?= ?b)%Z] => destruct (Z.compare_spec a b)
         | |- context [Pos.compare_cont Eq ?a ?b] =>
             change (Pos.compare_cont Eq a b) with (Pos.compare a b);
             destruct (Pos.compare_spec a b)
         end;
  subst; simpl; intros; try discriminate; try reflexivity; try lia.

(** Decides [all_coercible] on a list of pairs written out. *)
Ltac check_pairs :=
  unfold all_coercible;
  repeat (constructor;
          [ let H := fresh in
            intros H; vm_compute in H |- *; (reflexivity || discriminate H) | ]);
  try constructor.

(** ** Results about the runtime model *)

Lemma bind_ok {A B : Type} (m : pyresult A) (k : A -> pyresult B) (b : B) :
  bind m k = Ok b -> exists a, m = Ok a /\ k a = Ok b.
Proof.
  destruct m as [a | e]; simpl; intros H; [exists a; auto | discriminate].
Qed.

Lemma list_getitem_lt {A : Type} (xs : list A) (i : nat) :
  i < List.length xs -> exists v, list_getitem xs i = Ok v /\ nth_error xs i = Some v.
Proof.
  intros H. unfold list_getitem.
  destruct (nth_error xs i) as [v |] eqn:E.
  - exists v; auto.
  - apply nth_error_None in E. lia.
Qed.

Lemma get_list_ascii (s : string) (i : nat) :
  String.get i s = nth_error (list_ascii_of_string s) i.
Proof.
  revert i. induction s as [| c s IH]; intros [| i]; simpl; auto.
Qed.

Lemma length_list_ascii (s : string) :
  List.length (list_ascii_of_string s) = String.length s.
Proof.
  induction s as [| c s IH]; simpl; auto.
Qed.

Lemma seq_items_len (v : pyval) (xs : list pyval) :
  seq_items v = Some xs -> py_len v = Ok (List.length xs).
Proof.
  destruct v; simpl; intros H; inversion H; subst; auto.
  now rewrite length_map, length_list_ascii.
Qed.

Lemma seq_items_getitem (v : pyval) (xs : list pyval) (i : nat) :
  seq_items v = Some xs -> py_getitem v i = list_getitem xs i.
Proof.
  unfold list_getitem.
  destruct v; simpl; intros H; inversion H; subst; auto.
  rewrite get_list_ascii, nth_error_map.
  now destruct (nth_error (list_ascii_of_string s) i).
Qed.

Lemma seq_items_not_none (v : pyval) (xs : list pyval) :
  seq_items v = Some xs -> is_none v = false.
Proof.
  destruct v; simpl; intros H; now inversion H.
Qed.

Lemma py_len_raise (v : pyval) (e : exn) : py_len v = Raise e -> e = TypeError.
Proof.
  destruct v; simpl; congruence.
Qed.

Lemma py_getitem_raise (v : pyval) (i : nat) (e : exn) :
  py_getitem v i = Raise e -> e = TypeError \/ e = IndexError.
Proof.
  destruct v; simpl; try (intros [= <-]; auto).
  - destruct (String.get i s); intros [= <-]; auto.
  - destruct (nth_error xs i); intros [= <-]; auto.
  - destruct (nth_error xs i); intros [= <-]; auto.
Qed.

Lemma py_float_raise (v : pyval) (e : exn) :
  py_float v = Raise e -> e = TypeError \/ e = ValueError \/ e = OverflowError.
Proof.
  destruct v; simpl; try (intros [= <-]; auto); try discriminate.
  - destruct (is_infinite (float_of_Z z)); intros [= <-]; auto.
  - destruct (float_of_string s); intros [= <-]; auto.
Qed.

(** An object with a length and a readable first item is a sequence. *)
Lemma getitem_ok_seq (v x : pyval) (i : nat) :
  py_getitem v i = Ok x -> exists xs, seq_items v = Some xs.
Proof.
  destruct v; simpl; try discriminate; eauto.
Qed.

(** ** The validation loop *)

Lemma skipn_nth_error {A : Type} (l : list A) (a : nat) (x : A) :
  nth_error l a = Some x -> skipn a l = x :: skipn (S a) l.
Proof.
  revert a. induction l as [| y l IH]; intros [| a]; simpl; try discriminate.
  - now intros [= ->].
  - intros H. now rewrite (IH a H).
Qed.

Lemma nth_error_combine {A B : Type} (l : list A) (l' : list B) (i : nat) (x : A) (y : B) :
  nth_error l i = Some x -> nth_error l' i = Some y ->
  nth_error (combine l l') i = Some (x, y).
Proof.
  revert l' i. induction l as [| a l IH]; intros [| b l'] [| i]; simpl;
    try discriminate; auto.
  now intros [= ->] [= ->].
Qed.

Lemma loop_body_items (times temperatures : pyval) (ts ps : list pyval)
    (i : nat) (t temp : pyval) (st : loop_state) :
  seq_items times = Some ts -> seq_items temperatures = Some ps ->
  nth_error ts i = Some t -> nth_error ps i = Some temp ->
  loop_body times temperatures i st = process_pair i t temp st.
Proof.
  intros Hts Hps Ht Hp. unfold loop_body.
  rewrite (seq_items_getitem _ _ i Hts), (seq_items_getitem _ _ i Hps).
  unfold list_getitem. now rewrite Ht, Hp.
Qed.

Lemma for_each_scan (times temperatures : pyval) (ts ps : list pyval) :
  seq_items times = Some ts -> seq_items temperatures = Some ps ->
  forall n a st,
    a + n <= List.length ts -> a + n <= List.length ps ->
    for_each (loop_body times temperatures) (seq a n) st
    = scan_pairs a (firstn n (skipn a (combine ts ps))) st.
Proof.
  intros Hts Hps. induction n as [| n IH]; intros a st Ha Hb; simpl.
  - reflexivity.
  - destruct (nth_error ts a) as [t |] eqn:Et;
      [| apply nth_error_None in Et; lia].
    destruct (nth_error ps a) as [p |] eqn:Ep;
      [| apply nth_error_None in Ep; lia].
    rewrite (skipn_nth_error _ _ _ (nth_error_combine _ _ _ _ _ Et Ep)).
    simpl. rewrite (loop_body_items _ _ _ _ _ _ _ st Hts Hps Et Ep).
    destruct (process_pair a t p st) as [st' |]; simpl; auto.
    apply IH; lia.
Qed.

(** On two sequences the loop is the traversal of their aligned pairs. *)
Lemma validated_scan (times temperatures : pyval) (ts ps : list pyval) :
  seq_items times = Some ts -> seq_items temperatures = Some ps ->
  validated times temperatures = scan_pairs 0 (combine ts ps) loop_init.
Proof.
  intros Hts Hps. unfold validated, validate_pairs, effective_length.
  rewrite (seq_items_len _ _ Hts), (seq_items_len _ _ Hps).
  rewrite (for_each_scan _ _ _ _ Hts Hps) by lia.
  simpl skipn. rewrite <- length_combine. now rewrite firstn_all.
Qed.

Lemma process_pair_skip (i : nat) (t temp : pyval) (st : loop_state) :
  present (t, temp) = false ->
  process_pair i t temp st
  = Ok {| valid_times := valid_times st;
          valid_temps := valid_temps st;
          skipped_pairs := skipped_pairs st + 1 |}.
Proof.
  unfold present, process_pair; simpl. intros H.
  apply negb_false_iff in H. now rewrite H.
Qed.

Lemma process_pair_keep (i : nat) (t temp : pyval) (st : loop_state) :
  present (t, temp) = true ->
  process_pair i t temp st
  = match py_float temp with
    | Ok f => Ok {| valid_times := valid_times st ++ [t];
                    valid_temps := valid_temps st ++ [f];
                    skipped_pairs := skipped_pairs st |}
    | Raise e =>
        Raise (if is_TypeError_or_ValueError e
               then WeatherAnalysisError (invalid_temperature_msg i temp) else e)
    end.
Proof.
  unfold present, process_pair; simpl. intros H.
  apply negb_true_iff in H. rewrite H.
  destruct (py_float temp) as [f | e]; simpl; auto.
  now destruct (is_TypeError_or_ValueError e).
Qed.

(** A traversal that ends normally kept the present pairs in order, with
    their temperatures converted, and counted the others. *)
Lemma scan_pairs_ok (pairs : list (pyval * pyval)) :
  forall i st st',
    scan_pairs i pairs st = Ok st' ->
    all_coercible pairs /\
    valid_times st' = valid_times st ++ map fst (surviving pairs) /\
    (exists fs, valid_temps st' = valid_temps st ++ fs /\
                Forall2 coerces_to (map snd (surviving pairs)) fs) /\
    skipped_pairs st' = skipped_pairs st + skipped_count pairs.
Proof.
  unfold all_coercible, surviving, skipped_count.
  induction pairs as [| [t p] pairs IH]; intros i st st'; simpl.
  - intros [= <-]. rewrite app_nil_r. repeat split; auto.
    exists []. now rewrite app_nil_r.
  - intros H. apply bind_ok in H as (st1 & H1 & H2).
    apply IH in H2 as (Hall & Ht & (fs & Hf & Hfs) & Hk). clear IH.
    destruct (present (t, p)) eqn:E.
    + rewrite (process_pair_keep _ _ _ _ E) in H1.
      destruct (py_float p) as [f |] eqn:Ef; [| discriminate].
      injection H1 as <-. simpl in *.
      repeat split.
      * constructor; auto. intros _. unfold coercible. simpl. now rewrite Ef.
      * now rewrite Ht, <- app_assoc.
      * exists (f :: fs). split; [now rewrite Hf, <- app_assoc |].
        constructor; auto.
      * exact Hk.
    + rewrite (process_pair_skip _ _ _ _ E) in H1.
      injection H1 as <-. simpl in *.
      repeat split; auto.
      * constructor; auto. intros Hp. simpl in Hp. congruence.
      * exists fs. auto.
      * lia.
Qed.

(** The traversal ends normally when every present pair can be converted. *)
Lemma scan_pairs_total (pairs : list (pyval * pyval)) :
  all_coercible pairs ->
  forall i st, exists st', scan_pairs i pairs st = Ok st'.
Proof.
  unfold all_coercible.
  induction 1 as [| [t p] pairs Hp _ IH]; intros i st; simpl.
  - eauto.
  - destruct (present (t, p)) eqn:E.
    + rewrite (process_pair_keep _ _ _ _ E).
      specialize (Hp eq_refl). unfold coercible in Hp. simpl in Hp.
      destruct (py_float p) as [f |]; [| discriminate]. simpl. apply IH.
    + rewrite (process_pair_skip _ _ _ _ E). simpl. apply IH.
Qed.

(** A traversal that raises stopped at the first present pair whose
    temperature [float()] rejects. *)
Lemma scan_pairs_raise (pairs : list (pyval * pyval)) :
  forall i st e,
    scan_pairs i pairs st = Raise e ->
    exists j t temp e0,
      nth_error pairs j = Some (t, temp) /\
      present (t, temp) = true /\
      py_float temp = Raise e0 /\
      all_coercible (firstn j pairs) /\
      e = (if is_TypeError_or_ValueError e0
           then WeatherAnalysisError (invalid_temperature_msg (i + j) temp) else e0).
Proof.
  unfold all_coercible.
  induction pairs as [| [t p] pairs IH]; intros i st e; simpl; [discriminate |].
  destruct (present (t, p)) eqn:E.
  - rewrite (process_pair_keep _ _ _ _ E).
    destruct (py_float p) as [f | e0] eqn:Ef; simpl.
    + intros H. apply IH in H as (j & t' & p' & e0 & Hn & Hp & Hf & Hall & He).
      exists (S j), t', p', e0. simpl. repeat split; auto.
      * constructor; auto. intros _. unfold coercible; simpl. now rewrite Ef.
      * now rewrite Nat.add_succ_r.
    + intros [= <-]. exists 0, t, p, e0. simpl. rewrite Nat.add_0_r.
      repeat split; auto.
  - rewrite (process_pair_skip _ _ _ _ E). simpl.
    intros H. apply IH in H as (j & t' & p' & e0 & Hn & Hp & Hf & Hall & He).
    exists (S j), t', p', e0. simpl. repeat split; auto.
    + constructor; auto. intros Hp'. simpl in Hp'. congruence.
    + now rewrite Nat.add_succ_r.
Qed.

(** ** Order on floats *)

Lemma float_lt_trans (a b c : spec_float) :
  float_lt a b = true -> float_lt b c = true -> float_lt a c = true.
Proof. float_cases. Qed.

Lemma float_lt_le_trans (a b c : spec_float) :
  float_lt a b = true -> float_le b c = true -> float_lt a c = true.
Proof. float_cases. Qed.

Lemma float_le_lt_trans (a b c : spec_float) :
  float_le a b = true -> float_lt b c = true -> float_lt a c = true.
Proof. float_cases. Qed.

Lemma float_total (a b : spec_float) :
  is_nan a = false -> is_nan b = false ->
  float_lt a b = false -> float_le b a = true.
Proof. float_cases. Qed.

Lemma float_lt_le (a b : spec_float) : float_lt a b = true -> float_le a b = true.
Proof. float_cases. Qed.

Lemma float_eq_refl (a : spec_float) : is_nan a = false -> float_eq a a = true.
Proof. float_cases. Qed.

Lemma float_le_refl (a : spec_float) : is_nan a = false -> float_le a a = true.
Proof. float_cases. Qed.

Lemma float_lt_neq (a b : spec_float) : float_lt a b = true -> float_eq b a = false.
Proof. float_cases. Qed.

Lemma float_gt_neq (a b : spec_float) : float_gt a b = true -> float_eq b a = false.
Proof. float_cases. Qed.

Lemma float_lt_not_nan (a b : spec_float) :
  float_lt a b = true -> is_nan a = false /\ is_nan b = false.
Proof. float_cases; auto. Qed.

Lemma same_or_equal_refl (a : spec_float) : same_or_equal a a = true.
Proof.
  unfold same_or_equal. destruct (is_nan a) eqn:E; simpl; auto.
  now apply float_eq_refl.
Qed.

Lemma same_or_equal_not_nan (y m : spec_float) :
  is_nan m = false -> same_or_equal y m = float_eq y m.
Proof.
  unfold same_or_equal. intros ->. now rewrite andb_false_r.
Qed.

(** ** [min], [max] and [index] *)

Section Extremum.

(** [better item best] is the test that makes [item] the new candidate. *)
Variable better : spec_float -> spec_float -> bool.

Lemma fold_choose_In (l : list spec_float) (x : spec_float) :
  In (fold_left (choose better) l x) (x :: l).
Proof.
  revert x. induction l as [| y l IH]; intros x; simpl; auto.
  assert (Hc : choose better x y = x \/ choose better x y = y)
    by (unfold choose; destruct (better y x); auto).
  destruct (IH (choose better x y)) as [H | H]; [| now right; right].
  destruct Hc as [Hc | Hc]; rewrite Hc in *; [now left | now right; left].
Qed.

Hypothesis better_trans : forall a b c,
  better a b = true -> better b c = true -> better a c = true.
Hypothesis better_neg_trans : forall a b c,
  is_nan c = false ->
  better a b = true -> better c b = false -> better a c = true.

(** The candidate is better than everything before it and nothing after
    it is better. *)
Lemma fold_choose_split (l : list spec_float) :
  forall pre best post,
    no_nan (post ++ l) ->
    Forall (fun y => better best y = true) pre ->
    Forall (fun y => better y best = false) post ->
    exists pre' post',
      pre ++ best :: post ++ l = pre' ++ fold_left (choose better) l best :: post' /\
      Forall (fun y => better (fold_left (choose better) l best) y = true) pre' /\
      Forall (fun y => better y (fold_left (choose better) l best) = false) post'.
Proof.
  induction l as [| y l IH]; intros pre best post Hnan Hpre Hpost; simpl.
  - exists pre, post. now rewrite app_nil_r.
  - destruct (better y best) eqn:E;
      [ replace (choose better best y) with y by (unfold choose; now rewrite E)
      | replace (choose better best y) with best by (unfold choose; now rewrite E) ].
    + destruct (IH (pre ++ best :: post) y []) as (pre' & post' & Heq & H1 & H2).
      * apply Forall_app in Hnan as [_ Hnan]. now inversion Hnan.
      * apply Forall_app. split.
        -- eapply Forall_impl; [| exact Hpre]. intros a Ha. simpl in Ha.
           eapply better_trans; eauto.
        -- constructor; auto.
           apply Forall_app in Hnan as [Hnan _].
           rewrite Forall_forall in *. intros a Ha.
           apply better_neg_trans with (b := best); auto.
      * constructor.
      * exists pre', post'. split; auto.
        rewrite <- Heq. simpl. now rewrite <- !app_assoc.
    + destruct (IH pre best (post ++ [y])) as (pre' & post' & Heq & H1 & H2); auto.
      * now rewrite <- app_assoc.
      * apply Forall_app. split; auto.
      * exists pre', post'. split; auto.
        rewrite <- Heq. now rewrite <- app_assoc.
Qed.

End Extremum.

Lemma py_min_In (l : list spec_float) (m : spec_float) : py_min l = Ok m -> In m l.
Proof.
  destruct l as [| x l]; simpl; [discriminate |].
  intros [= <-]. apply (fold_choose_In float_lt).
Qed.

Lemma py_max_In (l : list spec_float) (m : spec_float) : py_max l = Ok m -> In m l.
Proof.
  destruct l as [| x l]; simpl; [discriminate |].
  intros [= <-]. apply (fold_choose_In float_gt).
Qed.

(** Without NaN, [min] returns the first of the smallest items. *)
Lemma py_min_split (l : list spec_float) (m : spec_float) :
  no_nan l -> py_min l = Ok m ->
  exists pre post,
    l = pre ++ m :: post /\
    Forall (fun y => float_lt m y = true) pre /\
    Forall (fun y => float_lt y m = false) post.
Proof.
  destruct l as [| x l]; simpl; [discriminate |].
  intros Hnan [= <-].
  destruct (fold_choose_split float_lt) with (l := l) (pre := @nil spec_float)
    (best := x) (post := @nil spec_float) as (pre & post & Heq & H1 & H2); auto.
  - intros a b c. apply float_lt_trans.
  - intros a b c Hc Hab Hcb.
    destruct (float_lt_not_nan _ _ Hab) as [Ha Hb].
    eapply float_lt_le_trans; eauto. now apply float_total.
  - now inversion Hnan.
  - exists pre, post. auto.
Qed.

(** Without NaN, [max] returns the first of the largest items. *)
Lemma py_max_split (l : list spec_float) (m : spec_float) :
  no_nan l -> py_max l = Ok m ->
  exists pre post,
    l = pre ++ m :: post /\
    Forall (fun y => float_gt m y = true) pre /\
    Forall (fun y => float_gt y m = false) post.
Proof.
  destruct l as [| x l]; simpl; [discriminate |].
  intros Hnan [= <-].
  destruct (fold_choose_split float_gt) with (l := l) (pre := @nil spec_float)
    (best := x) (post := @nil spec_float) as (pre & post & Heq & H1 & H2); auto.
  - intros a b c Hab Hbc. unfold float_gt in *. eapply float_lt_trans; eauto.
  - intros a b c Hc Hab Hcb. unfold float_gt in *.
    destruct (float_lt_not_nan _ _ Hab) as [Hb Ha].
    eapply float_le_lt_trans; eauto. now apply float_total.
  - now inversion Hnan.
  - exists pre, post. auto.
Qed.

Lemma list_index_In (x : spec_float) (l : list spec_float) :
  In x l -> exists i, list_index x l = Ok i /\ i < List.length l.
Proof.
  induction l as [| y l IH]; simpl; [tauto |].
  intros H. destruct (same_or_equal y x) eqn:E.
  - exists 0. split; auto. lia.
  - destruct H as [-> | H]; [now rewrite same_or_equal_refl in E |].
    destruct (IH H) as (i & -> & Hi). exists (S i). simpl. split; auto. lia.
Qed.

Lemma list_index_split (x : spec_float) (pre post : list spec_float) :
  Forall (fun y => same_or_equal y x = false) pre ->
  list_index x (pre ++ x :: post) = Ok (List.length pre).
Proof.
  induction 1 as [| y pre Hy _ IH]; simpl.
  - now rewrite same_or_equal_refl.
  - now rewrite Hy, IH.
Qed.

(** ** The list sort *)

Lemma search_bounds (fuel : nat) (pivot : spec_float) (items : list spec_float) :
  forall l r, l <= r -> l <= search fuel pivot items l r <= r.
Proof.
  induction fuel as [| fuel IH]; intros l r Hlr; cbn [search]; [lia |].
  destruct (l <? r) eqn:E; [| lia].
  apply Nat.ltb_lt in E.
  assert (Hp : (r - l) / 2 < r - l) by (apply Nat.div_lt; lia).
  destruct (float_lt pivot (nth (l + (r - l) / 2) items pivot)).
  - specialize (IH l (l + (r - l) / 2)). lia.
  - specialize (IH (l + (r - l) / 2 + 1) r). lia.
Qed.

Lemma binary_insert_perm (items : list spec_float) (pivot : spec_float) :
  Permutation (binary_insert items pivot) (pivot :: items).
Proof.
  unfold binary_insert.
  set (k := search _ _ _ _ _).
  transitivity (pivot :: firstn k items ++ skipn k items); [| now rewrite firstn_skipn].
  apply Permutation_sym, Permutation_middle.
Qed.

Lemma binarysort_perm (rest items : list spec_float) :
  Permutation (binarysort items rest) (items ++ rest).
Proof.
  unfold binarysort. revert items.
  induction rest as [| x rest IH]; intros items; simpl.
  - now rewrite app_nil_r.
  - rewrite IH, binary_insert_perm. apply Permutation_middle.
Qed.

Lemma sorted_perm (l : list spec_float) : Permutation (sorted l) l.
Proof.
  unfold sorted. destruct (count_run l) as [n descending].
  rewrite binarysort_perm.
  transitivity (firstn n l ++ skipn n l); [| now rewrite firstn_skipn].
  apply Permutation_app_tail.
  destruct descending; [apply Permutation_sym, Permutation_rev | apply Permutation_refl].
Qed.

Lemma sorted_length (l : list spec_float) : List.length (sorted l) = List.length l.
Proof. apply Permutation_length, sorted_perm. Qed.

Lemma float_le_trans (a b c : spec_float) :
  float_le a b = true -> float_le b c = true -> float_le a c = true.
Proof. float_cases. Qed.

Lemma strongly_sorted_nth {A : Type} (R : A -> A -> Prop) (l : list A) :
  StronglySorted R l ->
  forall i j x y, i < j -> nth_error l i = Some x -> nth_error l j = Some y -> R x y.
Proof.
  induction 1 as [| a l Hs IH Ha]; intros i j x y Hij Hx Hy.
  - destruct i; discriminate.
  - destruct j as [| j]; [lia |]. simpl in Hy.
    destruct i as [| i]; simpl in Hx.
    + injection Hx as <-. rewrite Forall_forall in Ha. apply Ha.
      eapply nth_error_In; eauto.
    + apply (IH i j); auto. lia.
Qed.

Lemma strongly_sorted_insert {A : Type} (R : A -> A -> Prop) (l1 l2 : list A) (m : A) :
  StronglySorted R (l1 ++ l2) ->
  Forall (fun x => R x m) l1 -> Forall (R m) l2 ->
  StronglySorted R (l1 ++ m :: l2).
Proof.
  induction l1 as [| x l1 IH]; simpl; intros Hs H1 H2.
  - now constructor.
  - inversion Hs as [| ? ? Hs' Hx]; subst. inversion H1; subst.
    constructor; auto.
    apply Forall_app in Hx as [Hx1 Hx2].
    apply Forall_app. split; auto.
Qed.

(** The binary search finds the place of the pivot in sorted items: no
    item before it is greater than the pivot, every item from it on is. *)
Lemma search_place (pivot : spec_float) (items : list spec_float) :
  StronglySorted (fun a b => float_le a b = true) items ->
  forall fuel l r,
    l <= r <= List.length items -> r - l <= fuel ->
    (forall i x, i < l -> nth_error items i = Some x -> float_lt pivot x = false) ->
    (forall i x, r <= i -> nth_error items i = Some x -> float_lt pivot x = true) ->
    let k := search fuel pivot items l r in
    (forall i x, i < k -> nth_error items i = Some x -> float_lt pivot x = false) /\
    (forall i x, k <= i -> nth_error items i = Some x -> float_lt pivot x = true).
Proof.
  intros Hs. induction fuel as [| fuel IH]; intros l r Hlr Hfuel Hlow Hhigh; cbn [search].
  - split; auto. intros i x Hi. apply Hhigh. lia.
  - destruct (l <? r) eqn:E.
    2:{ apply Nat.ltb_ge in E. split; auto. intros i x Hi. apply Hhigh. lia. }
    apply Nat.ltb_lt in E.
    assert (Hhalf : (r - l) / 2 < r - l) by (apply Nat.div_lt; lia).
    set (p := l + (r - l) / 2) in *.
    assert (Hp : p < List.length items) by (unfold p; lia).
    destruct (nth_error items p) as [xp |] eqn:Ep;
      [| apply nth_error_None in Ep; lia].
    rewrite (nth_error_nth _ _ pivot Ep).
    destruct (float_lt pivot xp) eqn:Ex.
    + apply IH; auto; try (unfold p; lia).
      intros i x Hi Hx.
      destruct (Nat.eq_dec i p) as [-> | Hne]; [congruence |].
      eapply float_lt_le_trans; [exact Ex |].
      apply (strongly_sorted_nth _ _ Hs p i); auto. lia.
    + apply IH; auto; try (unfold p; lia).
      intros i x Hi Hx.
      destruct (Nat.eq_dec i p) as [-> | Hne]; [congruence |].
      destruct (float_lt pivot x) eqn:Ex'; auto.
      assert (Hle : float_le x xp = true)
        by (apply (strongly_sorted_nth _ _ Hs i p); auto; lia).
      rewrite (float_lt_le_trans _ _ _ Ex' Hle) in Ex. discriminate.
Qed.

Lemma nth_error_firstn_lt {A : Type} (l : list A) (k i : nat) (x : A) :
  nth_error (firstn k l) i = Some x -> i < k /\ nth_error l i = Some x.
Proof.
  revert l i. induction k as [| k IH]; intros l i; simpl.
  - destruct i; discriminate.
  - destruct l as [| a l]; [destruct i; discriminate |].
    destruct i as [| i]; simpl; intros H; [split; [lia | auto] |].
    apply IH in H. split; [lia | tauto].
Qed.

Lemma nth_error_skipn_ge {A : Type} (l : list A) (k i : nat) :
  nth_error (skipn k l) i = nth_error l (k + i).
Proof.
  revert l. induction k as [| k IH]; intros l; simpl; auto.
  destruct l as [| a l]; simpl; auto. now destruct i.
Qed.

Lemma binary_insert_sorted (items : list spec_float) (pivot : spec_float) :
  is_nan pivot = false -> no_nan items ->
  StronglySorted (fun a b => float_le a b = true) items ->
  StronglySorted (fun a b => float_le a b = true) (binary_insert items pivot).
Proof.
  intros Hp Hnan Hs. unfold binary_insert.
  assert (Hhigh0 : forall i x, List.length items <= i -> nth_error items i = Some x ->
                          float_lt pivot x = true).
  { intros i x Hi Hx.
    assert (i < List.length items) by (apply nth_error_Some; congruence). lia. }
  destruct (search_place pivot items Hs (List.length items) 0 (List.length items))
    as [Hlow Hhigh]; auto; try lia.
  set (k := search _ _ _ _ _) in *.
  apply strongly_sorted_insert.
  - now rewrite firstn_skipn.
  - apply Forall_forall. intros x Hx.
    apply In_nth_error in Hx as (i & Hi).
    apply nth_error_firstn_lt in Hi as [Hik Hi].
    apply float_total; auto.
    + unfold no_nan in Hnan. rewrite Forall_forall in Hnan.
      apply Hnan. eapply nth_error_In; eauto.
    + eapply Hlow; eauto.
  - apply Forall_forall. intros x Hx.
    apply In_nth_error in Hx as (i & Hi).
    rewrite nth_error_skipn_ge in Hi.
    apply float_lt_le. eapply Hhigh; [| exact Hi]. lia.
Qed.

Lemma binarysort_sorted (rest items : list spec_float) :
  no_nan items -> no_nan rest ->
  StronglySorted (fun a b => float_le a b = true) items ->
  StronglySorted (fun a b => float_le a b = true) (binarysort items rest).
Proof.
  unfold binarysort. revert items.
  induction rest as [| x rest IH]; intros items Hi Hr Hs; simpl; auto.
  inversion Hr; subst.
  apply IH; auto.
  - apply (Permutation_Forall (Permutation_sym (binary_insert_perm items x))).
    now constructor.
  - now apply binary_insert_sorted.
Qed.

(** An ascending run is sorted. *)
Lemma ascending_run_sorted (rest : list spec_float) :
  forall x, no_nan (x :: rest) ->
  StronglySorted (fun a b => float_le a b = true)
    (x :: firstn (run_rest false x rest) rest).
Proof.
  induction rest as [| y rest IH]; intros x Hnan; simpl.
  - repeat constructor.
  - inversion Hnan as [| ? ? Hx Hrest]; subst. inversion Hrest as [| ? ? Hy _]; subst.
    destruct (float_lt y x) eqn:E; simpl.
    + repeat constructor.
    + specialize (IH y Hrest).
      assert (Hxy : float_le x y = true) by now apply float_total.
      constructor; auto.
      inversion IH; subst. constructor; auto.
      eapply Forall_impl; [| eassumption].
      intros z Hz. simpl in Hz. eapply float_le_trans; eauto.
Qed.

(** A descending run, reversed, is sorted. *)
Lemma descending_run_sorted (rest : list spec_float) :
  forall x acc,
    StronglySorted (fun a b => float_le a b = true) (x :: acc) ->
    StronglySorted (fun a b => float_le a b = true)
      (rev (firstn (run_rest true x rest) rest) ++ x :: acc).
Proof.
  induction rest as [| y rest IH]; intros x acc Hs; simpl; auto.
  destruct (float_lt y x) eqn:E; simpl; auto.
  rewrite <- app_assoc. simpl. apply IH.
  constructor; auto.
  inversion Hs; subst.
  constructor; [now apply float_lt_le |].
  eapply Forall_impl; [| eassumption].
  intros z Hz. simpl in Hz. apply float_lt_le. eapply float_lt_le_trans; eauto.
Qed.

Lemma firstn_no_nan (n : nat) (l : list spec_float) : no_nan l -> no_nan (firstn n l).
Proof.
  unfold no_nan. rewrite !Forall_forall. intros H x Hx. apply H.
  rewrite <- (firstn_skipn n l). apply in_or_app. now left.
Qed.

Lemma skipn_no_nan (n : nat) (l : list spec_float) : no_nan l -> no_nan (skipn n l).
Proof.
  unfold no_nan. rewrite !Forall_forall. intros H x Hx. apply H.
  rewrite <- (firstn_skipn n l). apply in_or_app. now right.
Qed.

(** On data without NaN [sorted] gives a sorted list. *)
Lemma sorted_sorted (l : list spec_float) :
  no_nan l -> StronglySorted (fun a b => float_le a b = true) (sorted l).
Proof.
  intros Hnan. unfold sorted.
  destruct (count_run l) as [n descending] eqn:Ec.
  apply binarysort_sorted.
  - destruct descending; [| now apply firstn_no_nan].
    apply (Permutation_Forall (Permutation_rev _)). now apply firstn_no_nan.
  - now apply skipn_no_nan.
  - destruct l as [| x [| y rest]].
    + injection Ec as <- <-. constructor.
    + injection Ec as <- <-. repeat constructor.
    + unfold count_run in Ec. injection Ec as <- <-.
      inversion Hnan as [| ? ? Hx Hrest]; subst.
      inversion Hrest as [| ? ? Hy _]; subst.
      cbn [Nat.add firstn].
      destruct (float_lt y x) eqn:E.
      * cbn [rev]. rewrite <- app_assoc. cbn [app].
        apply descending_run_sorted.
        repeat constructor. now apply float_lt_le.
      * constructor.
        -- now apply ascending_run_sorted.
        -- pose proof (ascending_run_sorted rest y Hrest) as Hs.
           assert (Hxy : float_le x y = true) by now apply float_total.
           constructor; auto.
           inversion Hs; subst.
           eapply Forall_impl; [| eassumption].
           intros z Hz. simpl in Hz. eapply float_le_trans; eauto.
Qed.

(** ** The standard deviation *)

Lemma as_integer_ratio_value (x : spec_float) (q : Q) :
  as_integer_ratio x = Ok q -> exists v, float_value x = Some v /\ (q == v)%Q.
Proof.
  destruct x as [s | s | | s m e]; simpl; try discriminate; intros [= <-].
  - exists 0%Q. split; [reflexivity | apply Qeq_refl].
  - eexists. split; [reflexivity | apply Qred_correct].
Qed.

Lemma exact_ratio_value (x : spec_float) :
  match _exact_ratio x with
  | inl q => exists v, float_value x = Some v /\ (Qnum q # Qden q == v)%Q
  | inr _ => float_value x = None
  end.
Proof.
  unfold _exact_ratio.
  destruct (as_integer_ratio x) as [q |] eqn:E.
  - destruct (as_integer_ratio_value _ _ E) as (v & Hv & Hq).
    exists v. split; auto.
  - destruct x; simpl in *; try discriminate; reflexivity.
Qed.

Lemma sum_fractions_from (square : bool) (p : list (positive * Z)) (acc : Q) :
  (fold_left (fun acc '(d, n) => acc + Qmake n (if square then d * d else d)) p acc
   == acc + sum_fractions square p)%Q.
Proof.
  unfold sum_fractions. revert acc.
  induction p as [| [d n] p IH]; intros acc; simpl.
  - ring.
  - rewrite IH. rewrite (IH (0 + _)%Q). ring.
Qed.

Lemma sum_fractions_cons (square : bool) (d : positive) (n : Z) (p : list (positive * Z)) :
  (sum_fractions square ((d, n) :: p)
   == Qmake n (if square then d * d else d) + sum_fractions square p)%Q.
Proof.
  unfold sum_fractions at 1. simpl. rewrite sum_fractions_from. ring.
Qed.

Lemma Qmake_plus (a b : Z) (d : positive) : (Qmake (a + b) d == Qmake a d + Qmake b d)%Q.
Proof. unfold Qeq, Qplus. simpl. nia. Qed.

Lemma sum_fractions_add_to (square : bool) (d : positive) (n : Z) (p : list (positive * Z)) :
  (sum_fractions square (add_to d n p)
   == sum_fractions square p + Qmake n (if square then d * d else d))%Q.
Proof.
  induction p as [| [d' n'] p IH]; simpl.
  - rewrite sum_fractions_cons. unfold sum_fractions. simpl. ring.
  - destruct (Pos.eqb d d') eqn:E.
    + apply Pos.eqb_eq in E. subst d'.
      rewrite !sum_fractions_cons, Qmake_plus. ring.
    + rewrite !sum_fractions_cons, IH. ring.
Qed.

Lemma Qmake_square (n : Z) (d : positive) :
  (Qmake (n * n) (d * d) == (Qmake n d) * (Qmake n d))%Q.
Proof. reflexivity. Qed.

Lemma Qsum_cons (x : Q) (qs : list Q) : Qsum (x :: qs) = (x + Qsum qs)%Q.
Proof. reflexivity. Qed.

(** On finite data the loop of [_ss] sums the data and their squares. *)
Lemma ss_fold_finite (data : list spec_float) :
  forall qs sx sxx,
    float_values data = Some qs ->
    exists sx' sxx',
      fold_left ss_step data (sx, sxx) = (sx', sxx') /\
      under_None sx' = under_None sx /\
      (sum_fractions false (by_denominator sx')
       == sum_fractions false (by_denominator sx) + Qsum qs)%Q /\
      (sum_fractions true (by_denominator sxx')
       == sum_fractions true (by_denominator sxx) + Qsum (map (fun x => x * x) qs))%Q.
Proof.
  induction data as [| x data IH]; intros qs sx sxx Hqs; simpl in Hqs.
  - injection Hqs as <-. exists sx, sxx. simpl. repeat split; auto; ring.
  - destruct (float_value x) as [v |] eqn:Ev; [| discriminate].
    destruct (float_values data) as [qs' |] eqn:Eqs; [| discriminate].
    injection Hqs as <-.
    cbn [fold_left]. unfold ss_step at 2.
    pose proof (exact_ratio_value x) as Hx.
    destruct (_exact_ratio x) as [q | f]; [| congruence].
    destruct Hx as (v' & Hv' & Hq). rewrite Ev in Hv'. injection Hv' as <-.
    edestruct (IH qs') as (sx' & sxx' & Hfold & Hnone & Hsx & Hsxx); [reflexivity |].
    rewrite Hfold. exists sx', sxx'. split; [reflexivity |].
    cbn [by_denominator under_None] in *.
    split; [assumption |]. split.
    + rewrite Hsx, sum_fractions_add_to, Qsum_cons, Hq. ring.
    + rewrite Hsxx, sum_fractions_add_to, map_cons, Qsum_cons, Qmake_square, Hq. ring.
Qed.

(** Once an infinity or a NaN has come up the key [None] stays. *)
Lemma ss_fold_under_None (data : list spec_float) :
  forall sx sxx, under_None sx <> None ->
  under_None (fst (fold_left ss_step data (sx, sxx))) <> None.
Proof.
  induction data as [| x data IH]; intros sx sxx H; simpl; auto.
  unfold ss_step at 1.
  destruct (_exact_ratio x) as [q | f]; apply IH; simpl; auto.
  destruct (under_None sx); simpl; congruence.
Qed.

Lemma ss_fold_not_finite (data : list spec_float) :
  forall sx sxx,
    float_values data = None ->
    under_None (fst (fold_left ss_step data (sx, sxx))) <> None.
Proof.
  induction data as [| x data IH]; intros sx sxx Hqs; simpl in Hqs; [discriminate |].
  cbn [fold_left]. unfold ss_step at 2.
  pose proof (exact_ratio_value x) as Hx.
  destruct (_exact_ratio x) as [q | f].
  - destruct Hx as (v & Hv & _). rewrite Hv in Hqs.
    destruct (float_values data) as [qs' |] eqn:Eqs; [discriminate |].
    now apply IH.
  - apply ss_fold_under_None. simpl.
    destruct (under_None sx); simpl; congruence.
Qed.

Lemma float_values_length (data : list spec_float) (qs : list Q) :
  float_values data = Some qs -> List.length qs = List.length data.
Proof.
  revert qs. induction data as [| x data IH]; intros qs; simpl.
  - now intros [= <-].
  - destruct (float_value x); [| discriminate].
    destruct (float_values data); [| discriminate].
    intros [= <-]. simpl. f_equal. auto.
Qed.

(** The squared deviations from any [c], summed. *)
Lemma sum_squared_deviations (c : Q) (qs : list Q) :
  (Qsum (map (fun x => (x - c) * (x - c)) qs)
   == Qsum (map (fun x => x * x) qs) - (2 # 1) * c * Qsum qs
      + inject_Z (Z.of_nat (List.length qs)) * c * c)%Q.
Proof.
  induction qs as [| x qs IH].
  - simpl. ring.
  - rewrite !map_cons, !Qsum_cons, IH. cbn [List.length].
    rewrite Nat2Z.inj_succ. unfold Z.succ. rewrite inject_Z_plus. ring.
Qed.

(** The formula of [_ss] and of [stdev] gives the sample variance. *)
Lemma ss_formula (qs : list Q) :
  2 <= List.length qs ->
  let n := inject_Z (Z.of_nat (List.length qs)) in
  let sx := Qsum qs in
  let sxx := Qsum (map (fun x => x * x)%Q qs) in
  ((n * sxx - sx * sx) / n / inject_Z (Z.of_nat (List.length qs - 1))
   == sample_variance qs)%Q.
Proof.
  intros Hlen n sx sxx. unfold sample_variance. fold n.
  rewrite sum_squared_deviations. fold n sx sxx.
  assert (Hn1 : (inject_Z (Z.of_nat (List.length qs - 1)) == n - 1)%Q).
  { unfold n. rewrite Nat2Z.inj_sub by lia. unfold Z.sub.
    rewrite inject_Z_plus, inject_Z_opp. simpl. ring. }
  rewrite Hn1.
  assert (Hn : ~ (n == 0)%Q).
  { unfold n, Qeq. simpl. lia. }
  assert (Hn' : ~ (n - 1 == 0)%Q).
  { rewrite <- Hn1. unfold Qeq. simpl. lia. }
  field. split; assumption.
Qed.

Lemma statistics_stdev_short (data : list spec_float) :
  List.length data < 2 -> statistics_stdev data = Raise StatisticsError.
Proof.
  intros H. unfold statistics_stdev, _ss.
  destruct (fold_left ss_step data (no_partials, no_partials)) as [sx sxx].
  destruct (List.length data =? 0) eqn:E0.
  - apply Nat.ltb_lt in H. now rewrite H.
  - destruct (under_None sx); apply Nat.ltb_lt in H; now rewrite H.
Qed.

(** [stdev] on two or more data of which one is an infinity or a NaN. *)
Lemma statistics_stdev_not_finite (data : list spec_float) :
  float_values data = None -> 2 <= List.length data ->
  statistics_stdev data = Raise AttributeError.
Proof.
  intros Hnone Hlen. unfold statistics_stdev, _ss.
  pose proof (ss_fold_not_finite data no_partials no_partials Hnone) as H.
  destruct (fold_left ss_step data (no_partials, no_partials)) as [sx sxx].
  simpl in H.
  destruct (List.length data =? 0) eqn:E0; [apply Nat.eqb_eq in E0; lia |].
  destruct (under_None sx) as [total |]; [| congruence].
  destruct (List.length data <? 2) eqn:E2; [apply Nat.ltb_lt in E2; lia | reflexivity].
Qed.

(** [stdev] on two or more finite data: the square root of the sample
    variance, read as a fraction in lowest terms. *)
Lemma statistics_stdev_finite (data : list spec_float) (qs : list Q) :
  float_values data = Some qs -> 2 <= List.length data ->
  statistics_stdev data
  = _float_sqrt_of_frac (Qnum (Qred (sample_variance qs)))
      (Zpos (Qden (Qred (sample_variance qs)))).
Proof.
  intros Hqs Hlen. unfold statistics_stdev, _ss.
  destruct (ss_fold_finite data qs no_partials no_partials Hqs)
    as (sx & sxx & -> & Hnone & Hsx & Hsxx).
  destruct (List.length data =? 0) eqn:E0; [apply Nat.eqb_eq in E0; lia |].
  rewrite Hnone. cbn [under_None no_partials].
  destruct (List.length data <? 2) eqn:E2; [apply Nat.ltb_lt in E2; lia |].
  pose proof (float_values_length _ _ Hqs) as Hl.
  assert (Heq : Qred ((inject_Z (Z.of_nat (List.length data))
                       * sum_fractions true (by_denominator sxx)
                       - sum_fractions false (by_denominator sx)
                         * sum_fractions false (by_denominator sx))
                      / inject_Z (Z.of_nat (List.length data))
                      / inject_Z (Z.of_nat (List.length data - 1)))
                = Qred (sample_variance qs)).
  { apply Qred_complete. rewrite Hsx, Hsxx. cbn [by_denominator no_partials].
    unfold sum_fractions at 1 2 3. cbn [fold_left].
    rewrite <- Hl. rewrite <- ss_formula by lia.
    rewrite !Qplus_0_l. reflexivity. }
  now rewrite Heq.
Qed.

Lemma Qsum_squares_nonneg (c : Q) (qs : list Q) :
  (0 <= Qsum (map (fun x => (x - c) * (x - c)) qs))%Q.
Proof.
  induction qs as [| x qs IH].
  - apply Qle_refl.
  - rewrite map_cons, Qsum_cons.
    apply (Qle_trans _ (0 + 0)); [apply Qle_refl |].
    apply Qplus_le_compat; auto.
    destruct (Qlt_le_dec (x - c) 0) as [H | H].
    + setoid_replace ((x - c) * (x - c))%Q with ((- (x - c)) * (- (x - c)))%Q by ring.
      apply Qmult_le_0_compat; apply (Qopp_le_compat (x - c) 0), Qlt_le_weak, H.
    + now apply Qmult_le_0_compat.
Qed.

Lemma sample_variance_nonneg (qs : list Q) :
  2 <= List.length qs -> (0 <= sample_variance qs)%Q.
Proof.
  intros H. unfold sample_variance.
  apply Qle_shift_div_l.
  - unfold Qlt. simpl. lia.
  - rewrite Qmult_0_l. apply Qsum_squares_nonneg.
Qed.

Lemma Qred_num_nonneg (q : Q) : (0 <= q)%Q -> (0 <= Qnum (Qred q))%Z.
Proof.
  intros H. rewrite <- (Qred_correct q) in H.
  unfold Qle in H. simpl in H. lia.
Qed.

(** Integer division by a non-zero integer gives a float or is out of
    range. *)
Lemma int_truediv_outcome (a b : Z) :
  b <> 0%Z ->
  (exists s, int_truediv a b = Ok s) \/ int_truediv a b = Raise OverflowError.
Proof.
  intros Hb. unfold int_truediv.
  destruct b; [congruence | |];
    (destruct a; [left; eauto | |]);
    match goal with
    | |- context [SFdiv ?p ?e ?x ?y] => destruct (SFdiv p e x y)
    end; eauto.
Qed.

Lemma isqrt_nonneg (z : Z) : (0 <= z)%Z -> isqrt z = Ok (Z.sqrt z).
Proof.
  intros H. unfold isqrt. destruct (z <? 0)%Z eqn:E; auto.
  apply Z.ltb_lt in E. lia.
Qed.

(** The square root of a non-negative fraction is a float or out of
    range. *)
Lemma float_sqrt_of_frac_outcome (n m : Z) :
  (0 <= n)%Z -> (0 < m)%Z ->
  (exists s, _float_sqrt_of_frac n m = Ok s)
  \/ _float_sqrt_of_frac n m = Raise OverflowError.
Proof.
  intros Hn Hm. unfold _float_sqrt_of_frac, _integer_sqrt_of_frac_rto.
  set (q := ((bit_length n - bit_length m - _sqrt_bit_width) / 2)%Z).
  destruct (0 <=? q)%Z eqn:Eq.
  - apply Z.leb_le in Eq.
    rewrite isqrt_nonneg.
    + cbn [bind]. apply int_truediv_outcome. discriminate.
    + apply Z.div_pos; [assumption |].
      rewrite Z.shiftl_mul_pow2 by lia. apply Z.mul_pos_pos; [assumption |].
      apply Z.pow_pos_nonneg; lia.
  - apply Z.leb_gt in Eq.
    rewrite isqrt_nonneg.
    + cbn [bind]. apply int_truediv_outcome.
      rewrite Z.shiftl_mul_pow2 by lia.
      assert (0 < 2 ^ (- q))%Z by (apply Z.pow_pos_nonneg; lia). lia.
    + apply Z.div_pos; [| assumption].
      rewrite Z.shiftl_mul_pow2 by lia. apply Z.mul_nonneg_nonneg; [assumption |].
      apply Z.pow_nonneg. lia.
Qed.

(** What [stdev] can do on two or more data: AttributeError exactly when an
    infinity or a NaN is among them, otherwise a float or OverflowError. *)
Lemma statistics_stdev_outcome (data : list spec_float) :
  2 <= List.length data ->
  (float_values data = None /\ statistics_stdev data = Raise AttributeError)
  \/ (exists qs, float_values data = Some qs /\
        ((exists s, statistics_stdev data = Ok s)
         \/ statistics_stdev data = Raise OverflowError)).
Proof.
  intros Hlen. destruct (float_values data) as [qs |] eqn:E.
  - right. exists qs. split; auto.
    rewrite (statistics_stdev_finite _ _ E Hlen).
    apply float_sqrt_of_frac_outcome; [| reflexivity].
    apply Qred_num_nonneg, sample_variance_nonneg.
    rewrite (float_values_length _ _ E). exact Hlen.
  - left. split; auto. now apply statistics_stdev_not_finite.
Qed.

(** ** The square root *)

Local Open Scope Z_scope.












Local Close Scope Z_scope.

(** ** The helpers on validated data *)

Lemma statistics_median_ok (l : list spec_float) :
  l <> [] -> exists m, statistics_median l = Ok m.
Proof.
  intros Hl. unfold statistics_median. rewrite sorted_length.
  assert (Hn : 0 < List.length l) by (destruct l; simpl; [congruence | lia]).
  destruct (List.length l =? 0) eqn:E0; [apply Nat.eqb_eq in E0; lia |].
  assert (Hhalf : List.length l / 2 < List.length l) by (apply Nat.div_lt; lia).
  destruct (List.length l mod 2 =? 1).
  - destruct (list_getitem_lt (sorted l) (List.length l / 2)) as (v & -> & _);
      [rewrite sorted_length; lia | eauto].
  - destruct (list_getitem_lt (sorted l) (List.length l / 2 - 1)) as (a & -> & _);
      [rewrite sorted_length; lia |].
    destruct (list_getitem_lt (sorted l) (List.length l / 2)) as (b & -> & _);
      [rewrite sorted_length; lia |].
    simpl. unfold float_div_int. simpl. eauto.
Qed.

Lemma calculate_median_ok (l : list spec_float) :
  l <> [] -> exists m, calculate_median l = Ok (Some m).
Proof.
  intros Hl. destruct (statistics_median_ok l Hl) as (m & Hm).
  exists m. unfold calculate_median. destruct l; [congruence |]. now rewrite Hm.
Qed.

Lemma calculate_standard_deviation_short (l : list spec_float) :
  List.length l < 2 -> calculate_standard_deviation l = Ok None.
Proof.
  intros H. unfold calculate_standard_deviation.
  destruct l as [| x l]; auto.
  apply Nat.ltb_lt in H. now rewrite H.
Qed.

Lemma calculate_standard_deviation_long (l : list spec_float) :
  2 <= List.length l ->
  calculate_standard_deviation l = (s <- statistics_stdev l ;; Ok (Some s)).
Proof.
  intros H. unfold calculate_standard_deviation.
  destruct l as [| x l]; [simpl in H; lia |].
  apply Nat.ltb_ge in H. now rewrite H.
Qed.

(** The guard of [calculate_standard_deviation] keeps StatisticsError
    away: what is left is what [stdev] does on two or more data. *)
Lemma calculate_standard_deviation_outcome (l : list spec_float) :
  (List.length l < 2 /\ calculate_standard_deviation l = Ok None)
  \/ (2 <= List.length l /\ float_values l = None /\
      calculate_standard_deviation l = Raise AttributeError)
  \/ (2 <= List.length l /\ float_values l <> None /\
      ((exists s, calculate_standard_deviation l = Ok (Some s))
       \/ calculate_standard_deviation l = Raise OverflowError)).
Proof.
  destruct (Nat.lt_ge_cases (List.length l) 2) as [H | H].
  - left. split; auto. now apply calculate_standard_deviation_short.
  - right. rewrite (calculate_standard_deviation_long _ H).
    destruct (statistics_stdev_outcome _ H) as [[Hn ->] | (qs & Hqs & [(s & ->) | ->])].
    + left. auto.
    + right. split; [assumption |]. split; [congruence |]. left. exists s. reflexivity.
    + right. split; [assumption |]. split; [congruence |]. now right.
Qed.

(** ** After the loop *)

(** Once the validated temperatures are there, the standard deviation
    decides: the summary is returned when it is, and fails as it does. *)
Lemma summarize_ok (tr : bool) (w : list message) (st : loop_state)
    (sd : option spec_float) :
  valid_temps st <> [] ->
  List.length (valid_times st) = List.length (valid_temps st) ->
  calculate_standard_deviation (valid_temps st) = Ok sd ->
  exists r, summarize tr w st = Ok r.
Proof.
  intros Hne Hlen Hsd. unfold summarize.
  destruct (calculate_median_ok _ Hne) as (md & Hmd).
  destruct (valid_temps st) as [| x l] eqn:El; [congruence |].
  rewrite Hmd, Hsd. cbn [bind].
  destruct (py_min (x :: l)) as [mn |] eqn:Emn; [| discriminate].
  destruct (py_max (x :: l)) as [mx |] eqn:Emx; [| discriminate].
  cbn [bind].
  destruct (list_index_In _ _ (py_min_In _ _ Emn)) as (i & -> & Hi).
  destruct (list_index_In _ _ (py_max_In _ _ Emx)) as (j & -> & Hj).
  cbn [bind].
  destruct (list_getitem_lt (valid_times st) i) as (ti & -> & _); [lia |].
  destruct (list_getitem_lt (valid_times st) j) as (tj & -> & _); [lia |].
  simpl. eauto.
Qed.

Lemma summarize_raise (tr : bool) (w : list message) (st : loop_state) (e : exn) :
  valid_temps st <> [] ->
  calculate_standard_deviation (valid_temps st) = Raise e ->
  summarize tr w st = Raise e.
Proof.
  intros Hne Hsd. unfold summarize.
  destruct (calculate_median_ok _ Hne) as (md & Hmd).
  destruct (valid_temps st) as [| x l] eqn:El; [congruence |].
  now rewrite Hmd, Hsd.
Qed.

(** The summary of validated temperatures is returned, or ends with what
    [stdev] raises. *)
Lemma summarize_outcome (tr : bool) (w : list message) (st : loop_state) :
  valid_temps st <> [] ->
  List.length (valid_times st) = List.length (valid_temps st) ->
  (exists r, summarize tr w st = Ok r)
  \/ (summarize tr w st = Raise AttributeError /\
      2 <= List.length (valid_temps st) /\ float_values (valid_temps st) = None)
  \/ (summarize tr w st = Raise OverflowError /\
      2 <= List.length (valid_temps st) /\ float_values (valid_temps st) <> None).
Proof.
  intros Hne Hlen.
  destruct (calculate_standard_deviation_outcome (valid_temps st))
    as [[Hl Hsd] | [(Hl & Hn & Hsd) | (Hl & Hn & [(s & Hsd) | Hsd])]].
  - left. eapply summarize_ok; eauto.
  - right. left. repeat split; auto. now apply summarize_raise.
  - left. eapply summarize_ok; eauto.
  - right. right. repeat split; auto. now apply summarize_raise.
Qed.

(** What a returned dictionary holds, field by field. *)
Lemma summarize_inv (tr : bool) (w : list message) (st : loop_state) (r : result) :
  summarize tr w st = Ok r ->
  valid_temps st <> [] /\
  truncated r = tr /\
  warnings r = (if skipped_pairs st =? 0 then w else w ++ [skipped_msg (skipped_pairs st)]) /\
  count r = List.length (valid_temps st) /\
  calculate_standard_deviation (valid_temps st) = Ok (stddev r) /\
  py_min (valid_temps st) = Ok (min r) /\
  py_max (valid_temps st) = Ok (max r) /\
  (exists i, list_index (min r) (valid_temps st) = Ok i /\
             nth_error (valid_times st) i = Some (min_time r)) /\
  (exists i, list_index (max r) (valid_temps st) = Ok i /\
             nth_error (valid_times st) i = Some (max_time r)).
Proof.
  unfold summarize. intros H.
  destruct (valid_temps st) as [| x l] eqn:El; [discriminate |].
  apply bind_ok in H as (md & _ & H).
  apply bind_ok in H as (sd & Hsd & H).
  apply bind_ok in H as (mn & Hmn & H).
  apply bind_ok in H as (mx & Hmx & H).
  apply bind_ok in H as (i & Hi & H).
  apply bind_ok in H as (j & Hj & H).
  apply bind_ok in H as (ti & Hti & H).
  apply bind_ok in H as (tj & Htj & H).
  apply bind_ok in H as (av & _ & H).
  injection H as <-. cbn [truncated warnings count stddev min max min_time max_time].
  unfold list_getitem in Hti, Htj.
  destruct (nth_error (valid_times st) i) as [ti' |] eqn:Eti; [| discriminate].
  destruct (nth_error (valid_times st) j) as [tj' |] eqn:Etj; [| discriminate].
  injection Hti as ->. injection Htj as ->.
  repeat split; auto; try congruence.
  - now destruct (skipped_pairs st =? 0).
  - exists i. auto.
  - exists j. auto.
Qed.

(** ** Shape validation *)

Lemma validate_pairs_first (times temperatures : pyval) (n : nat) (st : loop_state) :
  n <> 0 -> validate_pairs times temperatures n = Ok st ->
  exists t p, py_getitem times 0 = Ok t /\ py_getitem temperatures 0 = Ok p.
Proof.
  destruct n as [| n]; [congruence |]. intros _.
  unfold validate_pairs. simpl. unfold loop_body at 1.
  destruct (py_getitem times 0) as [t |]; [| discriminate].
  destruct (py_getitem temperatures 0) as [p |]; [| discriminate].
  eauto.
Qed.

(** On two non-empty sequences the call is the loop followed by the
    summary. *)
Lemma analyze_seq (times temperatures : pyval) (ts ps : list pyval) :
  seq_items times = Some ts -> seq_items temperatures = Some ps ->
  ts <> [] -> ps <> [] ->
  analyze_time_series times temperatures
  = st <- validated times temperatures ;;
    summarize (negb (List.length ts =? List.length ps))
      (if List.length ts =? List.length ps then []
       else [length_mismatch_msg (List.length ts) (List.length ps)]) st.
Proof.
  intros Hts Hps Hnt Hnp. unfold analyze_time_series, validated, effective_length.
  rewrite (seq_items_not_none _ _ Hts), (seq_items_not_none _ _ Hps).
  rewrite (seq_items_len _ _ Hts), (seq_items_len _ _ Hps). simpl.
  destruct ts as [| t ts]; [congruence |]. destruct ps as [| p ps]; [congruence |].
  cbn [List.length Nat.eqb orb].
  now destruct (List.length ts =? List.length ps).
Qed.

(** A call that returns was given two non-empty sequences. *)
Lemma analyze_ok_seq (times temperatures : pyval) (r : result) :
  analyze_time_series times temperatures = Ok r ->
  exists ts ps,
    seq_items times = Some ts /\ seq_items temperatures = Some ps /\
    ts <> [] /\ ps <> [].
Proof.
  unfold analyze_time_series. intros H.
  destruct (is_none times || is_none temperatures); [discriminate |].
  apply bind_ok in H as ([lt lp] & Hlen & H).
  destruct (py_len times) as [lt' |] eqn:Elt; simpl in Hlen;
    [| destruct e; discriminate].
  destruct (py_len temperatures) as [lp' |] eqn:Elp; simpl in Hlen;
    [| destruct e; discriminate].
  injection Hlen as -> ->.
  destruct ((lt =? 0) || (lp =? 0)) eqn:E0; [discriminate |].
  apply orb_false_iff in E0 as [E1 E2].
  apply Nat.eqb_neq in E1, E2.
  destruct (negb (lt =? lp));
    apply bind_ok in H as (st & Hst & _);
    apply validate_pairs_first in Hst as (t & p & Ht & Hp); try lia;
    destruct (getitem_ok_seq _ _ _ Ht) as (ts & Hts);
    destruct (getitem_ok_seq _ _ _ Hp) as (ps & Hps);
    rewrite (seq_items_len _ _ Hts) in Elt;
    rewrite (seq_items_len _ _ Hps) in Elp;
    exists ts, ps; repeat split; auto; intros ->; simpl in *; congruence.
Qed.

(** ** The call on two sequences *)

Lemma combine_nil_iff {A B : Type} (l : list A) (l' : list B) :
  combine l l' = [] <-> l = [] \/ l' = [].
Proof.
  destruct l, l'; simpl; split; auto; try discriminate; intros [H | H]; discriminate.
Qed.

(** The call depends on the two sequences through their lengths and their
    aligned pairs only. *)
Lemma analyze_spec (times temperatures : pyval) (ts ps : list pyval) :
  seq_items times = Some ts -> seq_items temperatures = Some ps ->
  analyze_time_series times temperatures
  = match combine ts ps with
    | [] => Raise (WeatherAnalysisError empty_msg)
    | pairs =>
        st <- scan_pairs 0 pairs loop_init ;;
        summarize (negb (List.length ts =? List.length ps))
          (if List.length ts =? List.length ps then []
           else [length_mismatch_msg (List.length ts) (List.length ps)]) st
    end.
Proof.
  intros Hts Hps.
  destruct (combine ts ps) as [| pr pairs] eqn:E.
  - unfold analyze_time_series.
    rewrite (seq_items_not_none _ _ Hts), (seq_items_not_none _ _ Hps).
    rewrite (seq_items_len _ _ Hts), (seq_items_len _ _ Hps). simpl.
    apply combine_nil_iff in E as [-> | ->]; simpl; auto.
    now rewrite orb_true_r.
  - rewrite <- E, <- (validated_scan _ _ _ _ Hts Hps).
    apply analyze_seq; auto; intros ->; simpl in E; try discriminate.
    destruct ts; discriminate.
Qed.

Lemma analyze_ok_inv (times temperatures : pyval) (r : result) :
  analyze_time_series times temperatures = Ok r ->
  exists ts ps st,
    seq_items times = Some ts /\ seq_items temperatures = Some ps /\
    ts <> [] /\ ps <> [] /\
    validated times temperatures = Ok st /\
    summarize (negb (List.length ts =? List.length ps))
      (if List.length ts =? List.length ps then []
       else [length_mismatch_msg (List.length ts) (List.length ps)]) st = Ok r.
Proof.
  intros H. destruct (analyze_ok_seq _ _ _ H) as (ts & ps & Hts & Hps & Hnt & Hnp).
  rewrite (analyze_seq _ _ _ _ Hts Hps Hnt Hnp) in H.
  apply bind_ok in H as (st & Hst & Hsum).
  exists ts, ps, st. repeat split; assumption.
Qed.

(** What the loop leaves behind when it ends normally. *)
Lemma validated_ok (times temperatures : pyval) (ts ps : list pyval) (st : loop_state) :
  seq_items times = Some ts -> seq_items temperatures = Some ps ->
  validated times temperatures = Ok st ->
  all_coercible (combine ts ps) /\
  valid_times st = map fst (surviving (combine ts ps)) /\
  Forall2 coerces_to (map snd (surviving (combine ts ps))) (valid_temps st) /\
  skipped_pairs st = skipped_count (combine ts ps).
Proof.
  intros Hts Hps H. rewrite (validated_scan _ _ _ _ Hts Hps) in H.
  apply scan_pairs_ok in H as (Hall & Ht & (fs & Hf & Hfs) & Hk).
  simpl in *. subst. auto.
Qed.

Lemma validated_lengths (times temperatures : pyval) (ts ps : list pyval) (st : loop_state) :
  seq_items times = Some ts -> seq_items temperatures = Some ps ->
  validated times temperatures = Ok st ->
  List.length (valid_times st) = List.length (valid_temps st) /\
  List.length (valid_temps st) = List.length (surviving (combine ts ps)).
Proof.
  intros Hts Hps H.
  destruct (validated_ok _ _ _ _ _ Hts Hps H) as (_ & Ht & Hf & _).
  apply Forall2_length in Hf. rewrite Ht, <- Hf, !length_map. auto.
Qed.

Lemma surviving_skipped_length (pairs : list (pyval * pyval)) :
  List.length (surviving pairs) + skipped_count pairs = List.length pairs.
Proof.
  unfold surviving, skipped_count.
  induction pairs as [| p pairs IH]; simpl; auto.
  destruct (present p); simpl; lia.
Qed.

(** When every present pair can be converted and at least one pair is
    present, the loop ends normally and the call is the summary of what it
    leaves behind. *)
Lemma analyze_reaches_summary (times temperatures : pyval) (ts ps : list pyval) :
  seq_items times = Some ts -> seq_items temperatures = Some ps ->
  all_coercible (combine ts ps) ->
  surviving (combine ts ps) <> [] ->
  exists st,
    validated times temperatures = Ok st /\
    valid_temps st <> [] /\
    List.length (valid_times st) = List.length (valid_temps st) /\
    analyze_time_series times temperatures
    = summarize (negb (List.length ts =? List.length ps))
        (if List.length ts =? List.length ps then []
         else [length_mismatch_msg (List.length ts) (List.length ps)]) st.
Proof.
  intros Hts Hps Hall Hsurv.
  destruct (scan_pairs_total _ Hall 0 loop_init) as (st & Hst).
  assert (Hv : validated times temperatures = Ok st)
    by now rewrite (validated_scan _ _ _ _ Hts Hps).
  destruct (validated_lengths _ _ _ _ _ Hts Hps Hv) as (Hl1 & Hl2).
  exists st. repeat split; auto.
  - intros E. rewrite E in Hl2. simpl in Hl2.
    destruct (surviving (combine ts ps)); [congruence | discriminate].
  - rewrite (analyze_spec _ _ _ _ Hts Hps).
    destruct (combine ts ps) as [| pr pairs] eqn:E; [now elim Hsurv |].
    now rewrite Hst.
Qed.

(** The call then returns when the standard deviation of the validated
    temperatures does. *)
Lemma analyze_succeeds (times temperatures : pyval) (ts ps : list pyval) :
  seq_items times = Some ts -> seq_items temperatures = Some ps ->
  all_coercible (combine ts ps) ->
  surviving (combine ts ps) <> [] ->
  (forall st, validated times temperatures = Ok st ->
              exists sd, calculate_standard_deviation (valid_temps st) = Ok sd) ->
  exists r st,
    analyze_time_series times temperatures = Ok r /\
    validated times temperatures = Ok st /\
    summarize (negb (List.length ts =? List.length ps))
      (if List.length ts =? List.length ps then []
       else [length_mismatch_msg (List.length ts) (List.length ps)]) st = Ok r.
Proof.
  intros Hts Hps Hall Hsurv Hsd.
  destruct (analyze_reaches_summary _ _ _ _ Hts Hps Hall Hsurv)
    as (st & Hv & Hne & Hlen & Heq).
  destruct (Hsd st Hv) as (sd & Hsd').
  destruct (summarize_ok (negb (List.length ts =? List.length ps))
              (if List.length ts =? List.length ps then []
               else [length_mismatch_msg (List.length ts) (List.length ps)]) st sd)
    as (r & Hr); auto.
  exists r, st. repeat split; auto. congruence.
Qed.

(** The call stops at the first present pair whose temperature [float()]
    rejects: with the invalid-temperature error when the rejection is a
    TypeError or a ValueError, with the rejection itself otherwise. *)
Lemma analyze_first_rejected (times temperatures : pyval) (ts ps : list pyval)
    (i : nat) (t temp : pyval) (e : exn) :
  seq_items times = Some ts -> seq_items temperatures = Some ps ->
  nth_error ts i = Some t -> nth_error ps i = Some temp ->
  is_none t = false -> is_none temp = false ->
  py_float temp = Raise e ->
  all_coercible (firstn i (combine ts ps)) ->
  analyze_time_series times temperatures
  = Raise (if is_TypeError_or_ValueError e
           then WeatherAnalysisError (invalid_temperature_msg i temp) else e).
Proof.
  intros Hts Hps Ht Hp Hnt Hnp He Hall.
  rewrite (analyze_spec _ _ _ _ Hts Hps).
  pose proof (nth_error_combine _ _ _ _ _ Ht Hp) as Hn.
  assert (Hscan : forall pairs j st k,
             nth_error pairs j = Some (t, temp) ->
             all_coercible (firstn j pairs) ->
             scan_pairs k pairs st
             = Raise (if is_TypeError_or_ValueError e
                      then WeatherAnalysisError (invalid_temperature_msg (k + j) temp)
                      else e)).
  { assert (Hpr : present (t, temp) = true)
      by (unfold present; simpl; now rewrite Hnt, Hnp).
    induction pairs as [| [t0 p0] pairs IH]; intros [| j] st k Hj Hc; simpl in *;
      try discriminate.
    - injection Hj as -> ->. rewrite (process_pair_keep _ _ _ _ Hpr), He.
      simpl. now rewrite Nat.add_0_r.
    - inversion Hc as [| ? ? Hc0 Hc']; subst.
      destruct (present (t0, p0)) eqn:E0.
      + rewrite (process_pair_keep _ _ _ _ E0).
        specialize (Hc0 eq_refl). unfold coercible in Hc0. simpl in Hc0.
        destruct (py_float p0); [| discriminate]. simpl.
        rewrite (IH j _ (S k) Hj Hc'). now rewrite Nat.add_succ_r.
      + rewrite (process_pair_skip _ _ _ _ E0). simpl.
        rewrite (IH j _ (S k) Hj Hc'). now rewrite Nat.add_succ_r. }
  destruct (combine ts ps) as [| pr pairs] eqn:E; [now destruct i |].
  rewrite (Hscan _ i loop_init 0 Hn Hall). simpl. reflexivity.
Qed.

Lemma all_present (pairs : list (pyval * pyval)) :
  Forall (fun p => present p = true) pairs ->
  surviving pairs = pairs /\ skipped_count pairs = 0.
Proof.
  unfold surviving, skipped_count.
  induction 1 as [| p pairs Hp _ [IH1 IH2]]; simpl; auto.
  rewrite Hp. simpl. now rewrite IH1, IH2.
Qed.

Lemma none_present (pairs : list (pyval * pyval)) :
  Forall (fun p => present p = false) pairs ->
  surviving pairs = [] /\ all_coercible pairs.
Proof.
  unfold surviving, all_coercible.
  induction 1 as [| p pairs Hp _ [IH1 IH2]]; simpl; auto.
  rewrite Hp. split; auto. constructor; auto. congruence.
Qed.

Lemma combine_present (ts ps : list pyval) :
  Forall (fun t => is_none t = false) ts ->
  Forall (fun p => is_none p = false /\ coercible p = true) ps ->
  Forall (fun pr => present pr = true) (combine ts ps) /\ all_coercible (combine ts ps).
Proof.
  unfold all_coercible. intros Hts. revert ps.
  induction Hts as [| t ts Ht _ IH]; intros ps Hps; simpl; auto.
  destruct Hps as [| p ps [Hp Hc] Hps]; simpl; auto.
  destruct (IH ps Hps) as [IH1 IH2].
  split; constructor; auto.
  unfold present. simpl. now rewrite Ht, Hp.
Qed.

(** ** The claims *)

(** C1: on two non-empty sequences of equal length, with no missing entry
    and numeric temperatures, the call should return a summary whose
    [count] is the common length.  Neither the conversion nor the standard
    deviation is guarded against what they raise on numbers: on finite
    floats whose standard deviation is beyond the float range the call ends
    with the OverflowError of [statistics.stdev], on two or more
    temperatures with an infinity among them with its AttributeError, and
    on an integer beyond the float range with the OverflowError of
    [float()]. *)
Theorem clean_input_uncaught :
  let largest := S754_finite false 9007199254740991 971 in
  float_of_string "1.7976931348623157e308" = Some largest /\
  analyze_time_series (PyList [PyStr "t0"; PyStr "t1"])
                      (PyList [PyFloat largest; PyFloat (SFopp largest)])
  = Raise OverflowError /\
  analyze_time_series (PyList [PyStr "t0"; PyStr "t1"])
                      (PyList [PyFloat (S754_infinity false); PyFloat (float_of_Z 20)])
  = Raise AttributeError /\
  analyze_time_series (PyList [PyStr "t0"]) (PyList [PyInt (10 ^ 400)])
  = Raise OverflowError.
Proof.
  vm_compute. repeat split; reflexivity.
Qed.

(** Apart from that the claim holds: when the standard deviation of the
    converted temperatures is returned, so is the summary; [count] is the
    common length, [truncated] is false and [warnings] is empty. *)
Lemma clean_input_summary (times temperatures : pyval) (ts ps : list pyval) :
  seq_items times = Some ts -> seq_items temperatures = Some ps ->
  ts <> [] -> List.length ts = List.length ps ->
  Forall (fun t => is_none t = false) ts ->
  Forall (fun p => is_none p = false /\ coercible p = true) ps ->
  (forall st, validated times temperatures = Ok st ->
              exists sd, calculate_standard_deviation (valid_temps st) = Ok sd) ->
  exists r,
    analyze_time_series times temperatures = Ok r /\
    count r = List.length ts /\ truncated r = false /\ warnings r = [].
Proof.
  intros Hts Hps Hne Hlen Hnt Hnp Hsd.
  destruct (combine_present _ _ Hnt Hnp) as [Hpres Hall].
  destruct (all_present _ Hpres) as [Hsurv Hk].
  assert (Hcl : List.length (combine ts ps) = List.length ts)
    by (rewrite length_combine; lia).
  destruct (analyze_succeeds _ _ _ _ Hts Hps Hall) as (r & st & Hr & Hst & Hsum);
    auto.
  - rewrite Hsurv. intros E. rewrite E in Hcl. destruct ts; simpl in *; congruence.
  - exists r. split; auto.
    apply summarize_inv in Hsum as (_ & Htr & Hw & Hc & _).
    destruct (validated_lengths _ _ _ _ _ Hts Hps Hst) as [_ Hl].
    destruct (validated_ok _ _ _ _ _ Hts Hps Hst) as (_ & _ & _ & Hsk).
    rewrite Hsk, Hk, Hlen, !Nat.eqb_refl in Hw. rewrite Hlen, Nat.eqb_refl in Htr.
    split; [now rewrite Hc, Hl, Hsurv | split; [exact Htr | exact Hw]].
Qed.

(** C2: a temperature [float()] cannot convert should end the call with
    WeatherAnalysisError naming its index and value.  The [except] clause
    catches TypeError and ValueError only: on an integer beyond the float
    range [float()] raises OverflowError, and the call ends with that
    OverflowError. *)
Theorem overflow_leaves_uncaught :
  let times := PyList [PyStr "t0"] in
  let temperatures := PyList [PyInt (10 ^ 400)] in
  py_float (PyInt (10 ^ 400)) = Raise OverflowError /\
  analyze_time_series times temperatures = Raise OverflowError.
Proof.
  vm_compute. split; reflexivity.
Qed.

(** When the rejection is a TypeError or a ValueError the call does end
    with the invalid-temperature error, for the first such index. *)
Lemma invalid_temperature_reported (times temperatures : pyval) (ts ps : list pyval)
    (i : nat) (t temp : pyval) (e : exn) :
  seq_items times = Some ts -> seq_items temperatures = Some ps ->
  nth_error ts i = Some t -> nth_error ps i = Some temp ->
  is_none t = false -> is_none temp = false ->
  py_float temp = Raise e -> is_TypeError_or_ValueError e = true ->
  all_coercible (firstn i (combine ts ps)) ->
  analyze_time_series times temperatures
  = Raise (WeatherAnalysisError (invalid_temperature_msg i temp)).
Proof.
  intros Hts Hps Ht Hp Hnt Hnp He Hh Hall.
  rewrite (analyze_first_rejected _ _ _ _ _ _ _ _ Hts Hps Ht Hp Hnt Hnp He Hall).
  now rewrite Hh.
Qed.

Example abc_rejected_at_index_0 :
  analyze_time_series (PyList [PyStr "t0"]) (PyList [PyStr "abc"])
  = Raise (WeatherAnalysisError (invalid_temperature_msg 0 (PyStr "abc"))).
Proof.
  apply (invalid_temperature_reported _ _ [PyStr "t0"] [PyStr "abc"] 0 (PyStr "t0")
           (PyStr "abc") ValueError); try reflexivity.
  constructor.
Qed.

(** C3: an argument that is not a proper sequence should end the call with
    WeatherAnalysisError.  Only [len()] is guarded: a set has a length, so
    it passes, and the call ends with the TypeError of [times[i]]. *)
Theorem set_argument_raises_TypeError :
  let times := PySet [PyStr "t0"] in
  let temperatures := PyList [PyFloat (float_of_Z 20)] in
  seq_items times = None /\
  py_len times = Ok 1 /\
  py_getitem times 0 = Raise TypeError /\
  analyze_time_series times temperatures = Raise TypeError.
Proof.
  vm_compute. repeat split; reflexivity.
Qed.

(** An argument without a length is rejected as the claim says. *)
Lemma no_length_rejected (times temperatures : pyval) :
  is_none times = false -> is_none temperatures = false ->
  py_len times = Raise TypeError \/ py_len temperatures = Raise TypeError ->
  analyze_time_series times temperatures
  = Raise (WeatherAnalysisError not_sequences_msg).
Proof.
  intros Ht Hp H. unfold analyze_time_series. rewrite Ht, Hp. simpl.
  destruct H as [-> | H]; simpl; auto.
  destruct (py_len times) as [lt | e] eqn:E; simpl; [now rewrite H |].
  now rewrite (py_len_raise _ _ E).
Qed.

(** C8: the call ends with WeatherAnalysisError when an argument is None,
    when an argument has length zero, and when every aligned pair has a
    missing side. *)
Theorem invalid_input_rejected :
  (forall times temperatures,
      is_none times = true \/ is_none temperatures = true ->
      analyze_time_series times temperatures
      = Raise (WeatherAnalysisError missing_msg)) /\
  (forall times temperatures,
      py_len times = Ok 0 \/ py_len temperatures = Ok 0 ->
      exists msg,
        analyze_time_series times temperatures = Raise (WeatherAnalysisError msg)) /\
  (forall times temperatures ts ps,
      seq_items times = Some ts -> seq_items temperatures = Some ps ->
      ts = [] \/ ps = [] ->
      analyze_time_series times temperatures
      = Raise (WeatherAnalysisError empty_msg)) /\
  (forall times temperatures ts ps,
      seq_items times = Some ts -> seq_items temperatures = Some ps ->
      ts <> [] -> ps <> [] ->
      Forall (fun p => present p = false) (combine ts ps) ->
      analyze_time_series times temperatures
      = Raise (WeatherAnalysisError no_valid_pairs_msg)).
Proof.
  repeat split.
  - intros times temperatures H. unfold analyze_time_series.
    destruct H as [-> | ->]; simpl; auto. now rewrite orb_true_r.
  - intros times temperatures H. unfold analyze_time_series.
    destruct (is_none times || is_none temperatures); [eauto |].
    destruct H as [H | H]; rewrite H; simpl.
    + destruct (py_len temperatures) as [lp | e] eqn:E; simpl; [eauto |].
      rewrite (py_len_raise _ _ E). simpl. eauto.
    + destruct (py_len times) as [lt | e] eqn:E; simpl.
      * rewrite orb_true_r. eauto.
      * rewrite (py_len_raise _ _ E). simpl. eauto.
  - intros times temperatures ts ps Hts Hps H.
    rewrite (analyze_spec _ _ _ _ Hts Hps).
    now rewrite (proj2 (combine_nil_iff ts ps) H).
  - intros times temperatures ts ps Hts Hps Hnt Hnp H.
    rewrite (analyze_spec _ _ _ _ Hts Hps).
    destruct (none_present _ H) as [Hsurv Hall].
    destruct (scan_pairs_total _ Hall 0 loop_init) as (st & Hst).
    destruct (scan_pairs_ok _ _ _ _ Hst) as (_ & _ & (fs & Hf & Hfs) & _).
    rewrite Hsurv in Hfs. inversion Hfs; subst. simpl in Hf.
    destruct (combine ts ps) eqn:E;
      [apply combine_nil_iff in E as [-> | ->]; congruence |].
    rewrite Hst. simpl. unfold summarize. now rewrite Hf.
Qed.

Lemma invalid_input_rejected_witness :
  analyze_time_series PyNone (PyList [PyInt 1])
  = Raise (WeatherAnalysisError missing_msg) /\
  (exists msg, analyze_time_series (PyList []) (PyList [])
               = Raise (WeatherAnalysisError msg)) /\
  analyze_time_series (PyList []) (PyList [])
  = Raise (WeatherAnalysisError empty_msg) /\
  analyze_time_series (PyList [PyNone; PyNone]) (PyList [PyNone; PyNone])
  = Raise (WeatherAnalysisError no_valid_pairs_msg).
Proof.
  destruct invalid_input_rejected as (H1 & H2 & H3 & H4).
  split; [| split; [| split]].
  - apply H1. left. reflexivity.
  - apply H2. left. reflexivity.
  - apply (H3 _ _ [] []); [reflexivity | reflexivity | left; reflexivity].
  - apply (H4 _ _ [PyNone; PyNone] [PyNone; PyNone]);
      [reflexivity | reflexivity | discriminate | discriminate | repeat constructor].
Defined.


Lemma combine_firstn_min {A B : Type} (l : list A) (l' : list B) :
  combine l l'
  = combine (firstn (Nat.min (List.length l) (List.length l')) l)
            (firstn (Nat.min (List.length l) (List.length l')) l').
Proof.
  rewrite <- combine_firstn. symmetry. apply firstn_all2.
  rewrite length_combine. lia.
Qed.



(** C10: the warnings of a returned result are, in this order, the
    length-mismatch warning when the lengths differ and the skipped-pair
    warning when a pair was skipped; nothing else, so at most two. *)
Theorem warnings_shape (times temperatures : pyval) (r : result) :
  analyze_time_series times temperatures = Ok r ->
  exists ts ps,
    seq_items times = Some ts /\ seq_items temperatures = Some ps /\
    warnings r = expected_warnings (List.length ts) (List.length ps)
                   (skipped_count (combine ts ps)) /\
    List.length (warnings r) <= 2.
Proof.
  intros H.
  destruct (analyze_ok_inv _ _ _ H) as (ts & ps & st & Hts & Hps & _ & _ & Hst & Hsum).
  exists ts, ps.
  apply summarize_inv in Hsum as (_ & _ & Hw & _).
  destruct (validated_ok _ _ _ _ _ Hts Hps Hst) as (_ & _ & _ & Hk).
  rewrite Hk in Hw.
  assert (Hexp : warnings r = expected_warnings (List.length ts) (List.length ps)
                                (skipped_count (combine ts ps))).
  { rewrite Hw. unfold expected_warnings.
    destruct (List.length ts =? List.length ps), (skipped_count (combine ts ps) =? 0);
      simpl; auto. }
  repeat split; auto.
  rewrite Hexp. unfold expected_warnings.
  destruct (List.length ts =? List.length ps), (skipped_count (combine ts ps) =? 0);
    simpl; lia.
Qed.

Lemma warnings_shape_witness :
  exists r,
    analyze_time_series (PyList [PyStr "t0"; PyNone; PyStr "t2"; PyStr "t3"])
                        (PyList [PyInt 10; PyInt 11; PyInt 12]) = Ok r /\
    warnings r = [length_mismatch_msg 4 3; skipped_msg 1].
Proof.
  destruct (analyze_time_series (PyList [PyStr "t0"; PyNone; PyStr "t2"; PyStr "t3"])
              (PyList [PyInt 10; PyInt 11; PyInt 12])) as [r | e] eqn:E;
    [| vm_compute in E; discriminate].
  exists r. split; [reflexivity |].
  destruct (warnings_shape _ _ r E) as (ts & ps & Hts & Hps & Hw & _).
  injection Hts as <-. injection Hps as <-. exact Hw.
Defined.

(** C5: with [k] aligned pairs missing a side, [k] below the effective
    length, and every other temperature convertible, the call should
    return with [count] the effective length minus [k].  The standard
    deviation of the converted temperatures is not guarded: with one pair
    skipped and two left, the call ends with the OverflowError of
    [statistics.stdev] on finite floats whose standard deviation is beyond
    the float range, and with its AttributeError when an infinity is among
    them. *)
Theorem skipped_pairs_uncaught :
  let largest := S754_finite false 9007199254740991 971 in
  let times := [PyStr "t0"; PyStr "t1"; PyStr "t2"] in
  let beyond := [PyFloat largest; PyNone; PyFloat (SFopp largest)] in
  let infinite := [PyStr "inf"; PyNone; PyStr "1"] in
  skipped_count (combine times beyond) = 1 /\
  all_coercible (combine times beyond) /\
  analyze_time_series (PyList times) (PyList beyond) = Raise OverflowError /\
  skipped_count (combine times infinite) = 1 /\
  all_coercible (combine times infinite) /\
  analyze_time_series (PyList times) (PyList infinite) = Raise AttributeError.
Proof.
  cbv zeta.
  split; [reflexivity |]. split; [check_pairs |]. split; [vm_compute; reflexivity |].
  split; [reflexivity |]. split; [check_pairs |]. vm_compute. reflexivity.
Qed.

(** Apart from that the claim holds: when the standard deviation of the
    validated temperatures is returned, so is the summary; [count] is the
    effective length minus [k]; the validated pairs are the present ones in
    input order; the skipped-pair warning with [k] is there when [k > 0],
    and no skipped-pair warning at all when [k = 0]. *)
Lemma skipped_pairs_counted (times temperatures : pyval) (ts ps : list pyval) (k : nat) :
  seq_items times = Some ts -> seq_items temperatures = Some ps ->
  skipped_count (combine ts ps) = k ->
  k < Nat.min (List.length ts) (List.length ps) ->
  all_coercible (combine ts ps) ->
  (forall st, validated times temperatures = Ok st ->
              exists sd, calculate_standard_deviation (valid_temps st) = Ok sd) ->
  exists r st,
    analyze_time_series times temperatures = Ok r /\
    validated times temperatures = Ok st /\
    count r = Nat.min (List.length ts) (List.length ps) - k /\
    valid_times st = map fst (surviving (combine ts ps)) /\
    Forall2 coerces_to (map snd (surviving (combine ts ps))) (valid_temps st) /\
    (0 < k -> In (skipped_msg k) (warnings r)) /\
    (k = 0 -> forall j, ~ In (skipped_msg j) (warnings r)).
Proof.
  intros Hts Hps Hk Hlt Hall Hsd.
  pose proof (surviving_skipped_length (combine ts ps)) as Hsl.
  rewrite length_combine, Hk in Hsl.
  destruct (analyze_succeeds _ _ _ _ Hts Hps Hall) as (r & st & Hr & Hst & Hsum);
    auto.
  { intros E. rewrite E in Hsl. simpl in Hsl. lia. }
  exists r, st.
  apply summarize_inv in Hsum as (_ & _ & Hw & Hc & _).
  destruct (validated_ok _ _ _ _ _ Hts Hps Hst) as (_ & Hvt & Hvp & Hsk).
  destruct (validated_lengths _ _ _ _ _ Hts Hps Hst) as [_ Hl].
  rewrite Hsk, Hk in Hw.
  repeat split; auto.
  - rewrite Hc, Hl. lia.
  - intros Hpos. rewrite Hw.
    destruct (k =? 0) eqn:E; [apply Nat.eqb_eq in E; lia |].
    apply in_or_app. right. now left.
  - intros -> j. rewrite Hw. simpl.
    destruct (List.length ts =? List.length ps); simpl; [tauto |].
    intros [H | []]. discriminate H.
Qed.

Lemma nth_error_combine_inv {A B : Type} (l : list A) (l' : list B) (i : nat) (x : A) (y : B) :
  nth_error (combine l l') i = Some (x, y) ->
  nth_error l i = Some x /\ nth_error l' i = Some y.
Proof.
  revert l' i. induction l as [| a l IH]; intros [| b l'] [| i]; simpl;
    try discriminate; auto.
  now intros [= -> ->].
Qed.

Lemma invalid_temperature_msg_inj (i j : nat) (v w : pyval) :
  invalid_temperature_msg i v = invalid_temperature_msg j w -> i = j /\ v = w.
Proof.
  unfold invalid_temperature_msg, py_int. intros [= Hi Hv].
  split; auto. now apply Nat2Z.inj.
Qed.

(** The loop can only start on two objects that can be indexed. *)
Lemma validate_pairs_indexable (times temperatures : pyval) (n : nat)
    (res : pyresult loop_state) :
  n <> 0 -> validate_pairs times temperatures n = res ->
  (exists e, res = Raise e /\ (e = TypeError \/ e = IndexError)) \/
  (exists ts ps, seq_items times = Some ts /\ seq_items temperatures = Some ps).
Proof.
  destruct n as [| n]; [congruence |]. intros _ <-.
  unfold validate_pairs. simpl. unfold loop_body at 1.
  destruct (py_getitem times 0) as [t | e] eqn:Et.
  - destruct (py_getitem temperatures 0) as [p | e] eqn:Ep.
    + right. destruct (getitem_ok_seq _ _ _ Et) as (ts & Hts).
      destruct (getitem_ok_seq _ _ _ Ep) as (ps & Hps). eauto.
    + left. exists e. split; auto. eapply py_getitem_raise; eauto.
  - left. exists e. split; auto. eapply py_getitem_raise; eauto.
Qed.

(** The invalid-temperature error only comes from a pair with both sides
    present. *)
Lemma invalid_temperature_origin (times temperatures : pyval) (i : nat) (temp : pyval) :
  analyze_time_series times temperatures
  = Raise (WeatherAnalysisError (invalid_temperature_msg i temp)) ->
  exists t,
    py_getitem times i = Ok t /\ is_none t = false /\
    py_getitem temperatures i = Ok temp /\ is_none temp = false /\
    coercible temp = false.
Proof.
  intros H.
  assert (Hseq : exists ts ps,
             seq_items times = Some ts /\ seq_items temperatures = Some ps).
  { unfold analyze_time_series in H.
    destruct (is_none times || is_none temperatures); [discriminate |].
    destruct (py_len times) as [lt | e] eqn:Elt; simpl in H;
      [| rewrite (py_len_raise _ _ Elt) in H; discriminate].
    destruct (py_len temperatures) as [lp | e] eqn:Elp; simpl in H;
      [| rewrite (py_len_raise _ _ Elp) in H; discriminate].
    destruct ((lt =? 0) || (lp =? 0)) eqn:E0; [discriminate |].
    apply orb_false_iff in E0 as [E1 E2]. apply Nat.eqb_neq in E1, E2.
    destruct (validate_pairs_indexable times temperatures (Nat.min lt lp) _
                ltac:(lia) eq_refl) as [(e & He & Hk) | Hs]; auto.
    destruct (negb (lt =? lp)); rewrite He in H; simpl in H;
      destruct Hk; subst; discriminate. }
  destruct Hseq as (ts & ps & Hts & Hps).
  rewrite (analyze_spec _ _ _ _ Hts Hps) in H.
  destruct (combine ts ps) as [| pr pairs] eqn:E; [discriminate |].
  destruct (scan_pairs 0 (pr :: pairs) loop_init) as [st | e] eqn:Es.
  - exfalso. cbn [bind] in H.
    destruct (scan_pairs_ok _ _ _ _ Es) as (_ & Ht & (fs & Hf & Hfs) & _).
    simpl in Ht, Hf. apply Forall2_length in Hfs. rewrite length_map in Hfs.
    destruct (valid_temps st) as [| x l] eqn:Evt.
    + unfold summarize in H. rewrite Evt in H. discriminate.
    + destruct (summarize_outcome (negb (List.length ts =? List.length ps))
                  (if List.length ts =? List.length ps then []
                   else [length_mismatch_msg (List.length ts) (List.length ps)]) st)
        as [(r & Hr) | [(Hr & _) | (Hr & _)]].
      * rewrite Evt. discriminate.
      * rewrite Ht, Evt, Hf, length_map. auto.
      * rewrite Hr in H. discriminate.
      * rewrite Hr in H. discriminate.
      * rewrite Hr in H. discriminate.
  - cbn [bind] in H. injection H as ->.
    apply scan_pairs_raise in Es as (j & t & temp' & e0 & Hn & Hp & Hf & _ & He).
    simpl in He.
    destruct (is_TypeError_or_ValueError e0) eqn:Eh.
    + assert (Hm : invalid_temperature_msg j temp' = invalid_temperature_msg i temp)
        by congruence.
      apply invalid_temperature_msg_inj in Hm as [-> ->].
      rewrite <- E in Hn. apply nth_error_combine_inv in Hn as [Hnt Hnp].
      exists t.
      rewrite (seq_items_getitem _ _ i Hts), (seq_items_getitem _ _ i Hps).
      unfold list_getitem. rewrite Hnt, Hnp.
      unfold present in Hp. simpl in Hp.
      apply negb_true_iff, orb_false_iff in Hp as [Hp1 Hp2].
      repeat split; auto. unfold coercible. now rewrite Hf.
    + apply py_float_raise in Hf. destruct Hf as [-> | [-> | ->]]; discriminate.
Qed.

Lemma combine_replace (ts : list pyval) :
  forall (ps : list pyval) (i : nat) (t : pyval),
    nth_error ts i = Some t -> i < List.length ps ->
    exists pre post,
      forall v, combine ts (firstn i ps ++ v :: skipn (S i) ps) = pre ++ (t, v) :: post.
Proof.
  induction ts as [| t0 ts IH]; intros ps [| i] t Ht Hi; simpl in Ht; try discriminate.
  - injection Ht as ->. destruct ps as [| p ps]; [simpl in Hi; lia |].
    exists [], (combine ts ps). reflexivity.
  - destruct ps as [| p ps]; [simpl in Hi; lia |]. simpl in Hi.
    destruct (IH ps i t Ht ltac:(lia)) as (pre & post & H).
    exists ((t0, p) :: pre), post. intros v. simpl. now rewrite H.
Qed.

Lemma scan_pairs_missing_time (pre post : list (pyval * pyval)) (v w : pyval) :
  forall i st,
    scan_pairs i (pre ++ (PyNone, v) :: post) st
    = scan_pairs i (pre ++ (PyNone, w) :: post) st.
Proof.
  induction pre as [| [t p] pre IH]; intros i st; simpl.
  - reflexivity.
  - destruct (process_pair i t p st); simpl; auto.
Qed.

(** The outcome of a call does not depend on a temperature whose time is
    None. *)
Lemma missing_time_hides_temperature (ts ps : list pyval) (i : nat) (v w : pyval) :
  nth_error ts i = Some PyNone -> i < List.length ps ->
  analyze_time_series (PyList ts) (PyList (firstn i ps ++ v :: skipn (S i) ps))
  = analyze_time_series (PyList ts) (PyList (firstn i ps ++ w :: skipn (S i) ps)).
Proof.
  intros Ht Hi.
  rewrite (analyze_spec (PyList ts) (PyList (firstn i ps ++ v :: skipn (S i) ps))
             _ _ eq_refl eq_refl).
  rewrite (analyze_spec (PyList ts) (PyList (firstn i ps ++ w :: skipn (S i) ps))
             _ _ eq_refl eq_refl).
  destruct (combine_replace ts ps i PyNone Ht Hi) as (pre & post & H).
  rewrite (H v), (H w).
  assert (Hl : forall u, List.length (firstn i ps ++ u :: skipn (S i) ps)
                         = List.length ps).
  { intros u. rewrite length_app, length_firstn. cbn [List.length].
    rewrite length_skipn. lia. }
  rewrite (Hl v), (Hl w).
  destruct pre as [| pr pre]; simpl.
  - reflexivity.
  - destruct pr as [t p]. destruct (process_pair 0 t p loop_init); simpl; auto.
    now rewrite (scan_pairs_missing_time pre post v w).
Qed.

(** C9: the null test comes before the conversion.  A pass of the loop
    over an index whose time is None only counts a skipped pair, whatever
    the temperature there, and the outcome of the call is the same for any
    value put at that index of the temperatures;
    [times=[None]], [temperatures=["abc"]] ends with the no-valid-pairs
    error; and the invalid-temperature error for index [i] means that both
    [times[i]] and [temperatures[i]] are present. *)
Theorem null_check_precedes_coercion :
  (forall times temperatures i temp st,
      py_getitem times i = Ok PyNone ->
      py_getitem temperatures i = Ok temp ->
      loop_body times temperatures i st
      = Ok {| valid_times := valid_times st;
              valid_temps := valid_temps st;
              skipped_pairs := skipped_pairs st + 1 |}) /\
  (forall ts ps i v w,
      nth_error ts i = Some PyNone -> i < List.length ps ->
      analyze_time_series (PyList ts) (PyList (firstn i ps ++ v :: skipn (S i) ps))
      = analyze_time_series (PyList ts) (PyList (firstn i ps ++ w :: skipn (S i) ps))) /\
  analyze_time_series (PyList [PyNone]) (PyList [PyStr "abc"])
  = Raise (WeatherAnalysisError no_valid_pairs_msg) /\
  (forall times temperatures i temp,
      analyze_time_series times temperatures
      = Raise (WeatherAnalysisError (invalid_temperature_msg i temp)) ->
      exists t,
        py_getitem times i = Ok t /\ is_none t = false /\
        py_getitem temperatures i = Ok temp /\ is_none temp = false /\
        coercible temp = false).
Proof.
  split; [| split; [| split]].
  - intros times temperatures i temp st Ht Hp.
    unfold loop_body. now rewrite Ht, Hp.
  - apply missing_time_hides_temperature.
  - reflexivity.
  - apply invalid_temperature_origin.
Qed.

Lemma null_check_precedes_coercion_witness :
  loop_body (PyList [PyStr "t0"; PyNone]) (PyList [PyInt 3; PyStr "abc"]) 1 loop_init
  = Ok {| valid_times := []; valid_temps := []; skipped_pairs := 1 |} /\
  analyze_time_series (PyList [PyStr "t0"; PyNone]) (PyList [PyInt 3; PyStr "abc"])
  = analyze_time_series (PyList [PyStr "t0"; PyNone]) (PyList [PyInt 3; PyInt 4]) /\
  exists t,
    py_getitem (PyList [PyStr "t0"]) 0 = Ok t /\ is_none t = false /\
    py_getitem (PyList [PyStr "abc"]) 0 = Ok (PyStr "abc") /\
    is_none (PyStr "abc") = false /\ coercible (PyStr "abc") = false.
Proof.
  destruct null_check_precedes_coercion as (H1 & H2 & _ & H3).
  split; [| split].
  - apply (H1 _ _ 1 (PyStr "abc") loop_init); reflexivity.
  - apply (H2 [PyStr "t0"; PyNone] [PyInt 3; PyNone] 1 (PyStr "abc") (PyInt 4));
      [reflexivity | simpl; lia].
  - apply (H3 (PyList [PyStr "t0"]) (PyList [PyStr "abc"]) 0 (PyStr "abc")).
    reflexivity.
Defined.

(** ** Extremes *)

Lemma first_at_split (m : spec_float) (pre post : list spec_float) :
  Forall (fun y => float_eq y m = false) pre ->
  first_at m (pre ++ m :: post) (List.length pre).
Proof.
  intros H. split.
  - rewrite nth_error_app2, Nat.sub_diag; auto.
  - intros j y Hj Hy. rewrite nth_error_app1 in Hy by exact Hj.
    apply nth_error_In in Hy. rewrite Forall_forall in H. now apply H.
Qed.

(** Without NaN, [min] followed by [index] finds the least item and its
    first position. *)
Lemma min_index_first (l : list spec_float) (m : spec_float) (i : nat) :
  no_nan l -> py_min l = Ok m -> list_index m l = Ok i ->
  is_minimum m l /\ first_at m l i.
Proof.
  intros Hnan Hm Hi.
  pose proof (py_min_In _ _ Hm) as Hin.
  assert (Hmn : is_nan m = false)
    by (unfold no_nan in Hnan; rewrite Forall_forall in Hnan; auto).
  destruct (py_min_split _ _ Hnan Hm) as (pre & post & -> & Hpre & Hpost).
  assert (Hne : Forall (fun y => float_eq y m = false) pre).
  { eapply Forall_impl; [| exact Hpre]. intros y Hy. simpl in Hy.
    now apply float_lt_neq. }
  rewrite list_index_split in Hi.
  - injection Hi as <-. split; [| now apply first_at_split].
    split; auto. intros x Hx.
    unfold no_nan in Hnan. rewrite Forall_forall in Hnan, Hpre, Hpost.
    apply in_app_or in Hx as [Hx | [<- | Hx]].
    + apply float_lt_le. auto.
    + now apply float_le_refl.
    + apply float_total; auto. apply Hnan, in_or_app. right. now right.
  - eapply Forall_impl; [| exact Hne]. intros y Hy. simpl in Hy.
    now rewrite same_or_equal_not_nan.
Qed.

(** Without NaN, [max] followed by [index] finds the greatest item and its
    first position. *)
Lemma max_index_first (l : list spec_float) (m : spec_float) (i : nat) :
  no_nan l -> py_max l = Ok m -> list_index m l = Ok i ->
  is_maximum m l /\ first_at m l i.
Proof.
  intros Hnan Hm Hi.
  pose proof (py_max_In _ _ Hm) as Hin.
  assert (Hmn : is_nan m = false)
    by (unfold no_nan in Hnan; rewrite Forall_forall in Hnan; auto).
  destruct (py_max_split _ _ Hnan Hm) as (pre & post & -> & Hpre & Hpost).
  assert (Hne : Forall (fun y => float_eq y m = false) pre).
  { eapply Forall_impl; [| exact Hpre]. intros y Hy. simpl in Hy.
    now apply float_gt_neq. }
  rewrite list_index_split in Hi.
  - injection Hi as <-. split; [| now apply first_at_split].
    split; auto. intros x Hx.
    unfold no_nan in Hnan. rewrite Forall_forall in Hnan, Hpre, Hpost.
    apply in_app_or in Hx as [Hx | [<- | Hx]].
    + apply float_lt_le. apply (Hpre x Hx).
    + now apply float_le_refl.
    + apply float_total; auto.
      * apply Hnan, in_or_app. right. now right.
      * apply (Hpost x Hx).
  - eapply Forall_impl; [| exact Hne]. intros y Hy. simpl in Hy.
    now rewrite same_or_equal_not_nan.
Qed.




(** ** Standard deviation *)





(** The scenario of the specification: one missing temperature among
    three readings. *)
Example scenario_one_missing :
  analyze_time_series (PyList [PyStr "t0"; PyStr "t1"; PyStr "t2"])
                      (PyList [PyFloat (float_of_Z 10); PyNone; PyFloat (float_of_Z 30)])
  = Ok {| median := Some (float_of_Z 20);
          stddev := float_of_string "14.142135623730951";
          min := float_of_Z 10;
          min_time := PyStr "t0";
          max := float_of_Z 30;
          max_time := PyStr "t2";
          average := float_of_Z 20;
          truncated := false;
          warnings := [skipped_msg 1];
          count := 2 |}.
Proof.
  vm_compute. reflexivity.
Qed.

(** ** The model on known values *)

Example float_of_string_tenth :
  float_of_string "0.1" = Some (S754_finite false 7205759403792794 (-56)).
Proof. vm_compute. reflexivity. Qed.

Example float_of_string_forms :
  map float_of_string [" 1_0.5e1 "; "-Infinity"; "NaN"; "1e400"; "1_"; "0x10"; ""]
  = [Some (float_of_Z 105); Some (S754_infinity true); Some S754_nan;
     Some (S754_infinity false); None; None; None].
Proof. vm_compute. reflexivity. Qed.

Example float_of_largest_int :
  py_float (PyInt (2 ^ 1024 - 2 ^ 970 - 1)) = Ok (S754_finite false 9007199254740991 971) /\
  py_float (PyInt (2 ^ 1024 - 2 ^ 970)) = Raise OverflowError.
Proof. vm_compute. split; reflexivity. Qed.

Example stdev_known_values :
  statistics_stdev [float_of_Z 1; float_of_Z 2; float_of_Z 4]
  = Ok (S754_finite false 6879362064066738 (-52)) /\
  statistics_stdev [float_of_Z 1] = Raise StatisticsError /\
  statistics_stdev [S754_nan; float_of_Z 1] = Raise AttributeError /\
  statistics_stdev [S754_infinity false; float_of_Z 20] = Raise AttributeError /\
  statistics_stdev [S754_finite false 9007199254740991 971;
                    S754_finite true 9007199254740991 971] = Raise OverflowError.
Proof. vm_compute. repeat split; reflexivity. Qed.

(** A NaN compares false with everything, so the sort leaves items around
    it where they are. *)
Example sorted_known_values :
  sorted [float_of_Z 3; float_of_Z 1; float_of_Z 2]
  = [float_of_Z 1; float_of_Z 2; float_of_Z 3] /\
  sorted [float_of_Z 2; S754_nan; float_of_Z 1]
  = [float_of_Z 2; S754_nan; float_of_Z 1] /\
  statistics_median [float_of_Z 2; S754_nan; float_of_Z 1] = Ok S754_nan.
Proof. vm_compute. repeat split; reflexivity. Qed.

Example render_warnings :
  render (skipped_msg 1)
  = Some "Skipped 1 pair(s) where time or temperature was missing." /\
  render (length_mismatch_msg 3 2)
  = Some "Input lengths differ: times=3, temperatures=2; truncated to shorter length." /\
  render (invalid_temperature_msg 0 (PyStr "abc"))
  = Some "Invalid temperature value at index 0: abc".
Proof. vm_compute. repeat split; reflexivity. Qed.

(** ** Further properties of [analyze_time_series] *)

(** The summary uses the loop state through its two lists only; the flag,
    the warnings passed in and the skipped count only show in [truncated]
    and [warnings]. *)
Lemma summarize_same (tr tr' : bool) (w w' : list message) (st st' : loop_state)
    (r : result) :
  valid_times st' = valid_times st -> valid_temps st' = valid_temps st ->
  summarize tr w st = Ok r ->
  exists r',
    summarize tr' w' st' = Ok r' /\
    same_statistics r r' /\
    truncated r' = tr' /\
    warnings r' = (if skipped_pairs st' =? 0 then w'
                   else w' ++ [skipped_msg (skipped_pairs st')]).
Proof.
  intros Ht Hf H. unfold summarize in *. rewrite Ht, Hf.
  destruct (valid_temps st) as [| x l]; [discriminate |].
  repeat match type of H with
         | bind ?m _ = _ => destruct m; cbn [bind] in *; [| discriminate]
         end.
  injection H as <-. eexists. split; [reflexivity |].
  unfold same_statistics. cbn.
  repeat split. now destruct (skipped_pairs st' =? 0).
Qed.

Lemma getitem_not_seq (v : pyval) (i : nat) :
  seq_items v = None -> py_getitem v i = Raise TypeError.
Proof.
  destruct v; simpl; try discriminate; auto.
Qed.

(** With a non-zero length on both sides, an argument that cannot be
    indexed stops the loop at its first pass, with TypeError. *)
Lemma validate_pairs_not_seq (times temperatures : pyval) (lt lp n : nat) :
  py_len times = Ok lt -> py_len temperatures = Ok lp ->
  lt <> 0 -> n <> 0 ->
  seq_items times = None \/ seq_items temperatures = None ->
  validate_pairs times temperatures n = Raise TypeError.
Proof.
  intros Hlt Hlp Hnz Hn Hns.
  destruct n as [| n]; [congruence |].
  unfold validate_pairs. simpl. unfold loop_body at 1.
  destruct (seq_items times) as [ts |] eqn:Ets.
  - destruct Hns as [Hns | Hns]; [discriminate |].
    rewrite (seq_items_getitem _ _ 0 Ets).
    rewrite (seq_items_len _ _ Ets) in Hlt. injection Hlt as Hlt.
    destruct ts as [| t ts]; [simpl in Hlt; congruence |].
    unfold list_getitem. simpl. now rewrite (getitem_not_seq _ 0 Hns).
  - now rewrite (getitem_not_seq _ 0 Ets).
Qed.

(** An argument that is not a sequence ends the call in shape validation,
    or with the TypeError of the first index access. *)
Lemma analyze_not_seq (times temperatures : pyval) (e : exn) :
  seq_items times = None \/ seq_items temperatures = None ->
  analyze_time_series times temperatures = Raise e ->
  e = WeatherAnalysisError missing_msg \/
  e = WeatherAnalysisError not_sequences_msg \/
  e = WeatherAnalysisError empty_msg \/
  e = TypeError.
Proof.
  intros Hns H. unfold analyze_time_series in H.
  destruct (is_none times || is_none temperatures); [injection H as <-; auto |].
  destruct (py_len times) as [lt | e1] eqn:Elt; simpl in H;
    [| rewrite (py_len_raise _ _ Elt) in H; injection H as <-; auto].
  destruct (py_len temperatures) as [lp | e1] eqn:Elp; simpl in H;
    [| rewrite (py_len_raise _ _ Elp) in H; injection H as <-; auto].
  destruct ((lt =? 0) || (lp =? 0)) eqn:E0; [injection H as <-; auto |].
  apply orb_false_iff in E0 as [E1 E2]. apply Nat.eqb_neq in E1, E2.
  rewrite (validate_pairs_not_seq _ _ lt lp (Nat.min lt lp) Elt Elp E1
             ltac:(lia) Hns) in H.
  destruct (negb (lt =? lp)); injection H as <-; auto.
Qed.



Lemma coerces_to_all_unique (vs : list pyval) (fs fs' : list spec_float) :
  Forall2 coerces_to vs fs -> Forall2 coerces_to vs fs' -> fs = fs'.
Proof.
  intros H. revert fs'. induction H as [| v f vs fs Hv _ IH]; intros fs' H'.
  - now inversion H'.
  - inversion H' as [| ? f' ? fs'' Hv' Hvs']; subst.
    unfold coerces_to in *. f_equal; [congruence | auto].
Qed.

(** X2: on two sequences the call returns exactly when every pair with
    both sides present has a temperature [float()] converts, at least one
    such pair exists, and [statistics.stdev] returns on the converted
    temperatures when there are two or more of them; for that, every one of
    them has to be finite. *)
Theorem analyze_returns_iff (times temperatures : pyval) (ts ps : list pyval) :
  seq_items times = Some ts -> seq_items temperatures = Some ps ->
  ((exists r, analyze_time_series times temperatures = Ok r) <->
   all_coercible (combine ts ps) /\ surviving (combine ts ps) <> [] /\
   forall fs,
     Forall2 coerces_to (map snd (surviving (combine ts ps))) fs ->
     2 <= List.length fs -> exists s, statistics_stdev fs = Ok s) /\
  ((exists r, analyze_time_series times temperatures = Ok r) ->
   forall fs,
     Forall2 coerces_to (map snd (surviving (combine ts ps))) fs ->
     2 <= List.length fs -> float_values fs <> None).
Proof.
  intros Hts Hps.
  assert (Hret : (exists r, analyze_time_series times temperatures = Ok r) ->
                 all_coercible (combine ts ps) /\ surviving (combine ts ps) <> [] /\
                 forall fs,
                   Forall2 coerces_to (map snd (surviving (combine ts ps))) fs ->
                   2 <= List.length fs -> exists s, statistics_stdev fs = Ok s).
  { intros (r & Hr).
    destruct (analyze_ok_inv _ _ _ Hr)
      as (ts' & ps' & st & Hts' & Hps' & _ & _ & Hst & Hsum).
    rewrite Hts in Hts'. rewrite Hps in Hps'.
    injection Hts' as <-. injection Hps' as <-.
    destruct (validated_ok _ _ _ _ _ Hts Hps Hst) as (Hall & _ & Hfs & _).
    destruct (validated_lengths _ _ _ _ _ Hts Hps Hst) as [_ Hl].
    apply summarize_inv in Hsum as (Hne & _ & _ & _ & Hsd & _).
    split; [assumption |]. split.
    - intros E. rewrite E in Hl.
      destruct (valid_temps st); [congruence | discriminate].
    - intros fs Hfs' H2.
      rewrite (coerces_to_all_unique _ _ _ Hfs' Hfs) in *.
      rewrite (calculate_standard_deviation_long _ H2) in Hsd.
      apply bind_ok in Hsd as (s & Hs & _). eauto. }
  split; [split; [exact Hret |] |].
  - intros (Hall & Hne & Hsd).
    destruct (analyze_succeeds _ _ _ _ Hts Hps Hall Hne) as (r & _ & Hr & _);
      [| eauto].
    intros st Hst.
    destruct (validated_ok _ _ _ _ _ Hts Hps Hst) as (_ & _ & Hfs & _).
    destruct (Nat.lt_ge_cases (List.length (valid_temps st)) 2) as [H2 | H2].
    + exists None. now apply calculate_standard_deviation_short.
    + destruct (Hsd _ Hfs H2) as (s & Hs).
      exists (Some s). now rewrite (calculate_standard_deviation_long _ H2), Hs.
  - intros Hr fs Hfs H2 Hnone.
    destruct (Hret Hr) as (_ & _ & Hsd).
    destruct (Hsd fs Hfs H2) as (s & Hs).
    rewrite (statistics_stdev_not_finite _ Hnone H2) in Hs. discriminate.
Qed.

Lemma analyze_returns_iff_witness :
  let ts := [char_item "a"; char_item "b"; char_item "c"] in
  let ps := [PyNone; PyStr "7"; PyStr "9.5"; PyStr "x"] in
  ((exists r, analyze_time_series (PyStr "abc") (PyList ps) = Ok r) <->
   all_coercible (combine ts ps) /\ surviving (combine ts ps) <> [] /\
   forall fs,
     Forall2 coerces_to (map snd (surviving (combine ts ps))) fs ->
     2 <= List.length fs -> exists s, statistics_stdev fs = Ok s) /\
  ((exists r, analyze_time_series (PyStr "abc") (PyList ps) = Ok r) ->
   forall fs,
     Forall2 coerces_to (map snd (surviving (combine ts ps))) fs ->
     2 <= List.length fs -> float_values fs <> None).
Proof.
  apply (analyze_returns_iff (PyStr "abc")
           (PyList [PyNone; PyStr "7"; PyStr "9.5"; PyStr "x"]));
    reflexivity.
Defined.

(** X3: in a returned result [count] is at least one, and [count] plus
    the number of aligned pairs with a missing side is the shorter of the
    two lengths. *)
Theorem count_plus_skipped (times temperatures : pyval) (r : result) :
  analyze_time_series times temperatures = Ok r ->
  exists ts ps,
    seq_items times = Some ts /\ seq_items temperatures = Some ps /\
    1 <= count r /\
    count r + skipped_count (combine ts ps)
    = Nat.min (List.length ts) (List.length ps).
Proof.
  intros H.
  destruct (analyze_ok_inv _ _ _ H) as (ts & ps & st & Hts & Hps & _ & _ & Hst & Hsum).
  exists ts, ps.
  destruct (validated_lengths _ _ _ _ _ Hts Hps Hst) as [_ Hl].
  apply summarize_inv in Hsum as (Hne & _ & _ & Hc & _).
  pose proof (surviving_skipped_length (combine ts ps)) as Hs.
  rewrite length_combine in Hs.
  repeat split; auto.
  - rewrite Hc. destruct (valid_temps st); [congruence | simpl; lia].
  - rewrite Hc, Hl. exact Hs.
Qed.

Lemma count_plus_skipped_witness :
  exists r,
    analyze_time_series (PyList [PyStr "t0"; PyNone; PyStr "t2"; PyStr "t3"])
                        (PyList [PyInt 10; PyInt 11; PyNone]) = Ok r /\
    1 <= count r /\ count r + 2 = 3.
Proof.
  destruct (analyze_time_series (PyList [PyStr "t0"; PyNone; PyStr "t2"; PyStr "t3"])
              (PyList [PyInt 10; PyInt 11; PyNone])) as [r | e] eqn:E;
    [| vm_compute in E; discriminate].
  exists r. split; [reflexivity |].
  destruct (count_plus_skipped _ _ r E) as (ts & ps & Hts & Hps & H1 & H2).
  injection Hts as <-. injection Hps as <-. split; [exact H1 | exact H2].
Defined.

Lemma combine_fst_snd {A B : Type} (l : list (A * B)) :
  combine (map fst l) (map snd l) = l.
Proof.
  induction l as [| [a b] l IH]; simpl; congruence.
Qed.

Lemma surviving_present (pairs : list (pyval * pyval)) :
  Forall (fun p => present p = true) (surviving pairs).
Proof.
  apply Forall_forall. intros p Hp. apply filter_In in Hp. tauto.
Qed.

Lemma surviving_coercible (pairs : list (pyval * pyval)) :
  all_coercible pairs -> all_coercible (surviving pairs).
Proof.
  unfold all_coercible. rewrite !Forall_forall. intros H p Hp.
  apply filter_In in Hp. apply H. tauto.
Qed.

(** X5: truncation is the analysis of the two prefixes.  Cutting both
    sequences to the shorter length beforehand gives the same statistics, or
    the same exception; the result on the cut sequences is not flagged and
    lacks the length-mismatch warning, nothing else differs. *)
Theorem truncation_is_prefix_analysis (times temperatures : pyval) (ts ps : list pyval) :
  seq_items times = Some ts -> seq_items temperatures = Some ps ->
  let n := Nat.min (List.length ts) (List.length ps) in
  (forall r,
      analyze_time_series times temperatures = Ok r ->
      exists r',
        analyze_time_series (PyList (firstn n ts)) (PyList (firstn n ps)) = Ok r' /\
        same_statistics r r' /\
        truncated r' = false /\
        warnings r
        = (if List.length ts =? List.length ps then []
           else [length_mismatch_msg (List.length ts) (List.length ps)])
          ++ warnings r') /\
  (forall e,
      analyze_time_series times temperatures = Raise e ->
      analyze_time_series (PyList (firstn n ts)) (PyList (firstn n ps)) = Raise e).
Proof.
  intros Hts Hps n.
  assert (Hl1 : List.length (firstn n ts) = n) by (rewrite length_firstn; lia).
  assert (Hl2 : List.length (firstn n ps) = n) by (rewrite length_firstn; lia).
  assert (Han : analyze_time_series (PyList (firstn n ts)) (PyList (firstn n ps))
                = match combine ts ps with
                  | [] => Raise (WeatherAnalysisError empty_msg)
                  | pairs => st <- scan_pairs 0 pairs loop_init ;; summarize false [] st
                  end).
  { rewrite (analyze_spec (PyList (firstn n ts)) (PyList (firstn n ps))
               (firstn n ts) (firstn n ps) eq_refl eq_refl).
    rewrite Hl1, Hl2, Nat.eqb_refl. unfold n. now rewrite <- combine_firstn_min. }
  rewrite Han, (analyze_spec _ _ _ _ Hts Hps).
  destruct (combine ts ps) as [| pr pairs]; [split; [discriminate | auto] |].
  destruct (scan_pairs 0 (pr :: pairs) loop_init) as [st | e1]; cbn [bind];
    [| split; [discriminate | auto]].
  split.
  - intros r Hr.
    destruct (summarize_same _ false _ [] st st r eq_refl eq_refl Hr)
      as (r' & Hr' & Hsame & Htr & Hw).
    exists r'. repeat split; auto; try apply Hsame.
    apply summarize_inv in Hr as (_ & _ & Hwr & _).
    rewrite Hwr, Hw.
    destruct (List.length ts =? List.length ps), (skipped_pairs st =? 0); reflexivity.
  - intros e Hr.
    destruct (summarize false [] st) as [r' | e'] eqn:E'.
    + destruct (summarize_same false (negb (List.length ts =? List.length ps)) []
                  (if List.length ts =? List.length ps then []
                   else [length_mismatch_msg (List.length ts) (List.length ps)])
                  st st r' eq_refl eq_refl E') as (r & Hr' & _).
      rewrite Hr' in Hr. discriminate.
    + unfold summarize in *. destruct (valid_temps st); [congruence |].
      repeat match type of E' with
             | bind ?m _ = _ => destruct m; cbn [bind] in *; [| congruence]
             end.
      discriminate.
Qed.

Lemma truncation_is_prefix_analysis_witness :
  exists r r',
    analyze_time_series (PyList [PyStr "t0"; PyStr "t1"; PyStr "t2"])
                        (PyTuple [PyInt 4; PyNone]) = Ok r /\
    analyze_time_series (PyList [PyStr "t0"; PyStr "t1"])
                        (PyList [PyInt 4; PyNone]) = Ok r' /\
    same_statistics r r' /\ truncated r' = false /\
    warnings r = [length_mismatch_msg 3 2] ++ warnings r'.
Proof.
  destruct (truncation_is_prefix_analysis
              (PyList [PyStr "t0"; PyStr "t1"; PyStr "t2"]) (PyTuple [PyInt 4; PyNone])
              [PyStr "t0"; PyStr "t1"; PyStr "t2"] [PyInt 4; PyNone] eq_refl eq_refl)
    as [H _].
  destruct (analyze_time_series (PyList [PyStr "t0"; PyStr "t1"; PyStr "t2"])
              (PyTuple [PyInt 4; PyNone])) as [r | e] eqn:E;
    [| vm_compute in E; discriminate].
  destruct (H r eq_refl) as (r' & Hr' & Hs & Ht & Hw).
  exists r, r'. repeat split; auto; apply Hs.
Defined.

(** X6: the pairs with a missing side do not weigh on the statistics.
    When a call returns, the call on the surviving pairs alone (their
    times, their temperatures) returns the same statistics, unflagged and
    without warnings. *)
Theorem dropping_missing_pairs (times temperatures : pyval) (ts ps : list pyval)
    (r : result) :
  seq_items times = Some ts -> seq_items temperatures = Some ps ->
  analyze_time_series times temperatures = Ok r ->
  exists r',
    analyze_time_series (PyList (map fst (surviving (combine ts ps))))
                        (PyList (map snd (surviving (combine ts ps)))) = Ok r' /\
    same_statistics r r' /\ truncated r' = false /\ warnings r' = [].
Proof.
  intros Hts Hps Hr.
  rewrite (analyze_spec _ _ _ _ Hts Hps) in Hr.
  destruct (combine ts ps) as [| pr pairs] eqn:E; [discriminate |].
  rewrite <- E in *. clear E pr pairs.
  apply bind_ok in Hr as (st & Hst & Hsum).
  destruct (scan_pairs_ok _ _ _ _ Hst) as (Hall & Ht & (fs & Hf & Hfs) & _).
  simpl in Ht, Hf.
  assert (Hpres := surviving_present (combine ts ps)).
  apply surviving_coercible in Hall.
  remember (surviving (combine ts ps)) as surv eqn:Esurv. clear Esurv.
  destruct (all_present surv Hpres) as [Hss Hk].
  destruct (scan_pairs_total surv Hall 0 loop_init) as (st' & Hst').
  destruct (scan_pairs_ok _ _ _ _ Hst') as (_ & Ht' & (fs' & Hf' & Hfs') & Hk').
  simpl in Ht', Hf', Hk'. rewrite Hss in Ht', Hfs'. rewrite Hk in Hk'.
  assert (Hfeq : fs' = fs) by (eapply coerces_to_all_unique; eauto).
  destruct (summarize_same _ false _ [] st st' r
              ltac:(congruence) ltac:(congruence) Hsum)
    as (r' & Hr' & Hsame & Htr & Hw).
  rewrite Hk' in Hw. simpl in Hw.
  exists r'. repeat split; auto; try apply Hsame.
  rewrite (analyze_spec (PyList (map fst surv)) (PyList (map snd surv))
             (map fst surv) (map snd surv) eq_refl eq_refl).
  rewrite combine_fst_snd, !length_map, Nat.eqb_refl.
  destruct surv as [| p0 surv0].
  - apply summarize_inv in Hsum as (Hne & _). rewrite Hf in Hne.
    inversion Hfs; subst. now elim Hne.
  - cbv beta iota. rewrite Hst'. exact Hr'.
Qed.

Lemma dropping_missing_pairs_witness :
  exists r r',
    analyze_time_series (PyList [PyStr "t0"; PyNone; PyStr "t2"; PyStr "t3"])
                        (PyList [PyStr "1.5"; PyInt 7; PyNone; PyInt 2]) = Ok r /\
    analyze_time_series (PyList [PyStr "t0"; PyStr "t3"])
                        (PyList [PyStr "1.5"; PyInt 2]) = Ok r' /\
    same_statistics r r' /\ warnings r' = [].
Proof.
  destruct (analyze_time_series (PyList [PyStr "t0"; PyNone; PyStr "t2"; PyStr "t3"])
              (PyList [PyStr "1.5"; PyInt 7; PyNone; PyInt 2])) as [r | e] eqn:E;
    [| vm_compute in E; discriminate].
  destruct (dropping_missing_pairs
              (PyList [PyStr "t0"; PyNone; PyStr "t2"; PyStr "t3"])
              (PyList [PyStr "1.5"; PyInt 7; PyNone; PyInt 2])
              [PyStr "t0"; PyNone; PyStr "t2"; PyStr "t3"]
              [PyStr "1.5"; PyInt 7; PyNone; PyInt 2] r eq_refl eq_refl E)
    as (r' & Hr' & Hs & _ & Hw).
  exists r, r'. repeat split; auto; apply Hs.
Defined.

Lemma list_index_nth (x : spec_float) (l : list spec_float) (i : nat) :
  list_index x l = Ok i ->
  exists y, nth_error l i = Some y /\ same_or_equal y x = true.
Proof.
  revert i. induction l as [| y l IH]; intros i; simpl; [discriminate |].
  destruct (same_or_equal y x) eqn:E.
  - intros [= <-]. exists y. auto.
  - intros H. apply bind_ok in H as (j & Hj & [= <-]). simpl. auto.
Qed.

Lemma Forall2_nth_error_r {A B : Type} (R : A -> B -> Prop) (l : list A) (l' : list B) :
  Forall2 R l l' ->
  forall i y, nth_error l' i = Some y ->
              exists x, nth_error l i = Some x /\ R x y.
Proof.
  induction 1 as [| a b l l' Hab _ IH]; intros [| i] y; simpl; try discriminate.
  - intros [= <-]. eauto.
  - apply IH.
Qed.

(** Where an extreme of the validated temperatures comes from in the
    input. *)
Lemma extreme_origin (ts ps : list pyval) (st : loop_state) (m : spec_float)
    (tm : pyval) (i : nat) :
  scan_pairs 0 (combine ts ps) loop_init = Ok st ->
  list_index m (valid_temps st) = Ok i ->
  nth_error (valid_times st) i = Some tm ->
  exists k temp f,
    nth_error ts k = Some tm /\ is_none tm = false /\
    nth_error ps k = Some temp /\ py_float temp = Ok f /\
    same_or_equal f m = true.
Proof.
  intros Hst Hi Htm.
  destruct (scan_pairs_ok _ _ _ _ Hst) as (_ & Ht & (fs & Hf & Hfs) & _).
  simpl in Ht, Hf. rewrite Ht in Htm. rewrite Hf in Hi.
  destruct (list_index_nth _ _ _ Hi) as (f & Hnf & Hsame).
  destruct (Forall2_nth_error_r _ _ _ Hfs _ _ Hnf) as (temp & Hnp & Hco).
  rewrite nth_error_map in Htm, Hnp.
  destruct (nth_error (surviving (combine ts ps)) i) as [[t p] |] eqn:Es;
    [| discriminate].
  simpl in Htm, Hnp. injection Htm as ->. injection Hnp as ->.
  apply nth_error_In in Es. apply filter_In in Es as [Hin Hpr].
  apply In_nth_error in Hin as (k & Hk).
  apply nth_error_combine_inv in Hk as [Hk1 Hk2].
  unfold present in Hpr. simpl in Hpr.
  apply negb_true_iff, orb_false_iff in Hpr as [Hp1 _].
  exists k, temp, f. auto.
Qed.

(** X7: [min_time] and [max_time] are entries of [times], not None, found
    at an index where the temperature converts to a float equal to [min]
    (to [max]), or NaN like it. *)
Theorem extreme_times_from_input (times temperatures : pyval) (r : result) :
  analyze_time_series times temperatures = Ok r ->
  exists ts ps,
    seq_items times = Some ts /\ seq_items temperatures = Some ps /\
    (exists k temp f,
        nth_error ts k = Some (min_time r) /\ is_none (min_time r) = false /\
        nth_error ps k = Some temp /\ py_float temp = Ok f /\
        same_or_equal f (min r) = true) /\
    (exists k temp f,
        nth_error ts k = Some (max_time r) /\ is_none (max_time r) = false /\
        nth_error ps k = Some temp /\ py_float temp = Ok f /\
        same_or_equal f (max r) = true).
Proof.
  intros H.
  destruct (analyze_ok_inv _ _ _ H) as (ts & ps & st & Hts & Hps & _ & _ & Hst & Hsum).
  rewrite (validated_scan _ _ _ _ Hts Hps) in Hst.
  apply summarize_inv in Hsum
    as (_ & _ & _ & _ & _ & _ & _ & (i & Hi & Hti) & (j & Hj & Htj)).
  exists ts, ps. repeat split; auto.
  - eapply extreme_origin; eauto.
  - eapply extreme_origin; eauto.
Qed.

Lemma extreme_times_from_input_witness :
  exists r k temp,
    analyze_time_series (PyList [PyStr "t0"; PyStr "t1"; PyStr "t2"])
                        (PyList [PyStr "7"; PyStr "-0.5"; PyInt 3]) = Ok r /\
    nth_error [PyStr "t0"; PyStr "t1"; PyStr "t2"] k = Some (min_time r) /\
    nth_error [PyStr "7"; PyStr "-0.5"; PyInt 3] k = Some temp /\
    exists f, py_float temp = Ok f /\ same_or_equal f (min r) = true.
Proof.
  destruct (analyze_time_series (PyList [PyStr "t0"; PyStr "t1"; PyStr "t2"])
              (PyList [PyStr "7"; PyStr "-0.5"; PyInt 3])) as [r | e] eqn:E;
    [| vm_compute in E; discriminate].
  destruct (extreme_times_from_input _ _ r E)
    as (ts & ps & Hts & Hps & (k & temp & f & H1 & _ & H2 & H3 & H4) & _).
  injection Hts as <-. injection Hps as <-.
  exists r, k, temp. repeat split; auto. exists f. auto.
Defined.

(** ** Median *)

Lemma strongly_sorted_middle {A : Type} (R : A -> A -> Prop) (l1 l2 : list A) (m : A) :
  StronglySorted R (l1 ++ m :: l2) -> Forall (fun x => R x m) l1 /\ Forall (R m) l2.
Proof.
  induction l1 as [| x l1 IH]; simpl; intros H; inversion H; subst.
  - auto.
  - destruct (IH H2) as [H1' H2']. split; auto.
    constructor; auto. rewrite Forall_forall in H3. apply H3.
    apply in_or_app. right. now left.
Qed.

(** The odd case of [statistics.median]: the item with as many items
    before it as after it in the sorted data. *)
Lemma statistics_median_odd (l : list spec_float) (m : spec_float) :
  statistics_median l = Ok m -> List.length l mod 2 = 1 ->
  exists l1 l2, sorted l = l1 ++ m :: l2 /\ List.length l1 = List.length l2.
Proof.
  unfold statistics_median. rewrite sorted_length. intros H Hodd.
  destruct (List.length l =? 0) eqn:E0; [discriminate |].
  rewrite Hodd in H. change (1 =? 1) with true in H. cbv iota in H.
  unfold list_getitem in H.
  destruct (nth_error (sorted l) (List.length l / 2)) as [v |] eqn:En; [| discriminate].
  injection H as ->.
  apply nth_error_split in En as (l1 & l2 & Heq & Hl1).
  exists l1, l2. split; auto.
  pose proof (sorted_length l) as Hlen. rewrite Heq, length_app in Hlen.
  simpl in Hlen.
  pose proof (Nat.div_mod_eq (List.length l) 2) as Hd. lia.
Qed.

(** The even case: the float mean of the two middle items. *)
Lemma statistics_median_even (l : list spec_float) (m : spec_float) :
  statistics_median l = Ok m -> List.length l mod 2 = 0 ->
  exists l1 a b l2,
    sorted l = l1 ++ a :: b :: l2 /\ List.length l1 = List.length l2 /\
    m = SFdiv prec emax (SFadd prec emax a b) (float_of_Z 2).
Proof.
  unfold statistics_median. rewrite sorted_length. intros H Heven.
  destruct (List.length l =? 0) eqn:E0; [discriminate |].
  apply Nat.eqb_neq in E0.
  rewrite Heven in H. change (0 =? 1) with false in H. cbv iota in H.
  apply bind_ok in H as (a & Ha & H). apply bind_ok in H as (b & Hb & H).
  unfold float_div_int in H. change (2 =? 0) with false in H. cbv iota in H.
  injection H as <-.
  unfold list_getitem in Ha, Hb.
  destruct (nth_error (sorted l) (List.length l / 2 - 1)) as [a' |] eqn:Ea;
    [| discriminate].
  destruct (nth_error (sorted l) (List.length l / 2)) as [b' |] eqn:Eb;
    [| discriminate].
  injection Ha as ->. injection Hb as ->.
  pose proof (Nat.div_mod_eq (List.length l) 2) as Hd.
  apply nth_error_split in Ea as (l1 & l2 & Heq & Hl1).
  pose proof (sorted_length l) as Hlen.
  rewrite Heq in Eb.
  rewrite nth_error_app2 in Eb by lia.
  replace (List.length l / 2 - List.length l1) with 1 in Eb by lia.
  destruct l2 as [| b' l2]; simpl in Eb; [discriminate |]. injection Eb as ->.
  exists l1, a, b, l2. repeat split; auto.
  rewrite Heq, length_app in Hlen. simpl in Hlen. lia.
Qed.

Lemma summarize_median (tr : bool) (w : list message) (st : loop_state) (r : result) :
  summarize tr w st = Ok r ->
  exists m, median r = Some m /\ statistics_median (valid_temps st) = Ok m.
Proof.
  unfold summarize. intros H.
  destruct (valid_temps st) as [| x l] eqn:El; [discriminate |].
  unfold calculate_median in H.
  destruct (statistics_median (x :: l)) as [m |] eqn:Em; [| discriminate].
  cbn [bind] in H.
  repeat match type of H with
         | bind ?m _ = _ => destruct m; cbn [bind] in H; [| discriminate]
         end.
  injection H as <-. exists m. auto.
Qed.

(** X4: the [median] of a returned result is never None.  With an odd
    [count] it is a validated temperature with as many others on each side,
    those on one side below it and those on the other above it when no NaN
    is among them; with an even [count] it is the float mean of the two
    temperatures in the middle. *)
Theorem median_is_middle (times temperatures : pyval) (r : result) :
  analyze_time_series times temperatures = Ok r ->
  exists st m,
    validated times temperatures = Ok st /\ median r = Some m /\
    (count r mod 2 = 1 ->
     exists l1 l2,
       Permutation (valid_temps st) (l1 ++ m :: l2) /\
       List.length l1 = List.length l2 /\
       (no_nan (valid_temps st) ->
        Forall (fun x => float_le x m = true) l1 /\
        Forall (fun x => float_le m x = true) l2)) /\
    (count r mod 2 = 0 ->
     exists l1 a b l2,
       Permutation (valid_temps st) (l1 ++ a :: b :: l2) /\
       List.length l1 = List.length l2 /\
       m = SFdiv prec emax (SFadd prec emax a b) (float_of_Z 2) /\
       (no_nan (valid_temps st) ->
        Forall (fun x => float_le x a = true) l1 /\
        float_le a b = true /\
        Forall (fun x => float_le b x = true) l2)).
Proof.
  intros H.
  destruct (analyze_ok_inv _ _ _ H) as (ts & ps & st & _ & _ & _ & _ & Hst & Hsum).
  destruct (summarize_median _ _ _ _ Hsum) as (m & Hm & Hmed).
  apply summarize_inv in Hsum as (_ & _ & _ & Hc & _).
  exists st, m. split; [exact Hst |]. split; [exact Hm |].
  rewrite Hc. split; intros Hpar.
  - destruct (statistics_median_odd _ _ Hmed Hpar) as (l1 & l2 & Heq & Hlen).
    exists l1, l2. rewrite <- Heq.
    split; [apply Permutation_sym, sorted_perm |]. split; [exact Hlen |].
    intros Hnan. apply sorted_sorted in Hnan. rewrite Heq in Hnan.
    now apply strongly_sorted_middle in Hnan.
  - destruct (statistics_median_even _ _ Hmed Hpar)
      as (l1 & a & b & l2 & Heq & Hlen & Hv).
    exists l1, a, b, l2. rewrite <- Heq.
    split; [apply Permutation_sym, sorted_perm |]. split; [exact Hlen |].
    split; [exact Hv |].
    intros Hnan. apply sorted_sorted in Hnan. rewrite Heq in Hnan.
    destruct (strongly_sorted_middle _ _ _ _ Hnan) as [H1 H2].
    split; [exact H1 |]. inversion H2 as [| ? ? Hab _]; subst.
    split; [exact Hab |].
    change (l1 ++ a :: b :: l2) with (l1 ++ [a] ++ b :: l2) in Hnan.
    rewrite app_assoc in Hnan.
    now apply strongly_sorted_middle in Hnan.
Qed.

Lemma median_is_middle_witness :
  exists r st m l1 l2,
    analyze_time_series (PyList [PyStr "t0"; PyStr "t1"; PyStr "t2"])
                        (PyList [PyInt 30; PyStr "10"; PyInt 20]) = Ok r /\
    validated (PyList [PyStr "t0"; PyStr "t1"; PyStr "t2"])
              (PyList [PyInt 30; PyStr "10"; PyInt 20]) = Ok st /\
    median r = Some m /\
    Permutation (valid_temps st) (l1 ++ m :: l2) /\
    List.length l1 = List.length l2.
Proof.
  destruct (analyze_time_series (PyList [PyStr "t0"; PyStr "t1"; PyStr "t2"])
              (PyList [PyInt 30; PyStr "10"; PyInt 20])) as [r | e] eqn:E;
    [| vm_compute in E; discriminate].
  destruct (median_is_middle _ _ r E) as (st & m & Hst & Hm & Hodd & _).
  destruct Hodd as (l1 & l2 & Hp & Hl & _).
  - vm_compute in E. injection E as <-. reflexivity.
  - exists r, st, m, l1, l2. repeat split; auto.
Defined.

(** ** analyzer.py: [analyze_numbers] and [print_report] *)

Lemma min_max_bounds (l : list spec_float) (mn mx : spec_float) :
  no_nan l -> py_min l = Ok mn -> py_max l = Ok mx ->
  forall x, In x l -> float_le mn x = true /\ float_le x mx = true.
Proof.
  intros Hnan Hmn Hmx x Hx.
  destruct (list_index_In _ _ (py_min_In _ _ Hmn)) as (i & Hi & _).
  destruct (list_index_In _ _ (py_max_In _ _ Hmx)) as (j & Hj & _).
  destruct (min_index_first _ _ _ Hnan Hmn Hi) as [[_ H1] _].
  destruct (max_index_first _ _ _ Hnan Hmx Hj) as [[_ H2] _].
  auto.
Qed.

(** On a non-empty list [analyze_numbers] returns a dictionary built from
    [sum], [len], [min] and [max]. *)
Lemma analyze_numbers_some (numbers : list spec_float) :
  numbers <> [] ->
  exists res,
    analyzer.analyze_numbers numbers = Ok (Some res) /\
    analyzer.count res = List.length numbers /\
    analyzer.total res = py_sum numbers /\
    py_min numbers = Ok (analyzer.min res) /\
    py_max numbers = Ok (analyzer.max res).
Proof.
  intros Hne. unfold analyzer.analyze_numbers.
  destruct numbers as [| x l]; [congruence |].
  unfold float_div_int. cbn [List.length Nat.eqb bind].
  destruct (py_min (x :: l)) as [mn |] eqn:Emn; [| discriminate].
  destruct (py_max (x :: l)) as [mx |] eqn:Emx; [| discriminate].
  cbn [bind]. eexists. split; [reflexivity |].
  cbn [analyzer.count analyzer.total analyzer.min analyzer.max].
  repeat split.
Qed.

(** X8: [analyze_numbers] returns None on the empty list and only there;
    on any other list of floats it returns a dictionary, without raising,
    whose [count] is the length and whose [min] and [max] are entries of
    the list bounding all of them when no NaN is in it. *)
Theorem analyze_numbers_summary (numbers : list spec_float) :
  (numbers = [] -> analyzer.analyze_numbers numbers = Ok None) /\
  (numbers <> [] ->
   exists res,
     analyzer.analyze_numbers numbers = Ok (Some res) /\
     analyzer.count res = List.length numbers /\
     analyzer.total res = py_sum numbers /\
     In (analyzer.min res) numbers /\ In (analyzer.max res) numbers /\
     (no_nan numbers ->
      forall x, In x numbers ->
                float_le (analyzer.min res) x = true /\
                float_le x (analyzer.max res) = true)).
Proof.
  split; [now intros -> |].
  intros Hne.
  destruct (analyze_numbers_some numbers Hne) as (res & Hres & Hc & Ht & Hmn & Hmx).
  exists res. split; [exact Hres |]. split; [exact Hc |]. split; [exact Ht |].
  split; [apply (py_min_In _ _ Hmn) |]. split; [apply (py_max_In _ _ Hmx) |].
  intros Hnan y Hy. eapply min_max_bounds; eauto.
Qed.

Lemma analyze_numbers_summary_witness :
  exists res,
    analyzer.analyze_numbers [float_of_Z 4; float_of_Z (-1); float_of_Z 9] = Ok (Some res) /\
    analyzer.count res = 3 /\
    float_le (analyzer.min res) (float_of_Z 4) = true /\
    float_le (float_of_Z 4) (analyzer.max res) = true.
Proof.
  destruct (analyze_numbers_summary [float_of_Z 4; float_of_Z (-1); float_of_Z 9])
    as [_ H].
  destruct H as (res & Hres & Hc & _ & _ & _ & Hb); [discriminate |].
  exists res. split; [exact Hres |]. split; [exact Hc |].
  apply Hb; [repeat constructor | left; reflexivity].
Defined.

Lemma summarize_average (tr : bool) (w : list message) (st : loop_state) (r : result) :
  summarize tr w st = Ok r ->
  float_div_int (py_sum (valid_temps st)) (List.length (valid_temps st))
  = Ok (average r).
Proof.
  unfold summarize. intros H.
  destruct (valid_temps st) as [| x l] eqn:El; [discriminate |].
  repeat match type of H with
         | bind (float_div_int ?a ?b) _ = _ =>
             destruct (float_div_int a b) eqn:Ed; cbn [bind] in H; [| discriminate]
         | bind ?m _ = _ => destruct m; cbn [bind] in H; [| discriminate]
         end.
  injection H as <-. reflexivity.
Qed.

(** X9: the two modules agree.  [analyze_numbers] on the temperatures a
    call of [analyze_time_series] validated returns the [count], [average],
    [min] and [max] of its result. *)
Theorem analyze_numbers_agrees (times temperatures : pyval) (r : result) :
  analyze_time_series times temperatures = Ok r ->
  exists st res,
    validated times temperatures = Ok st /\
    analyzer.analyze_numbers (valid_temps st) = Ok (Some res) /\
    analyzer.count res = count r /\
    analyzer.average res = average r /\
    analyzer.min res = min r /\
    analyzer.max res = max r.
Proof.
  intros H.
  destruct (analyze_ok_inv _ _ _ H) as (ts & ps & st & _ & _ & _ & _ & Hst & Hsum).
  pose proof (summarize_average _ _ _ _ Hsum) as Hav.
  apply summarize_inv in Hsum as (Hne & _ & _ & Hc & _ & Hmn & Hmx & _).
  exists st. unfold analyzer.analyze_numbers.
  destruct (valid_temps st) as [| x l] eqn:El; [congruence |].
  cbv beta iota zeta. rewrite Hav, Hmn, Hmx. cbn [bind].
  eexists. split; [exact Hst |]. split; [reflexivity |].
  cbn [analyzer.count analyzer.average analyzer.min analyzer.max].
  rewrite Hc. repeat split.
Qed.

Lemma analyze_numbers_agrees_witness :
  exists r res,
    analyze_time_series (PyList [PyStr "t0"; PyNone; PyStr "t2"])
                        (PyList [PyStr "1.5"; PyInt 7; PyInt 2]) = Ok r /\
    analyzer.analyze_numbers [S754_finite false 6755399441055744 (-52); float_of_Z 2]
    = Ok (Some res) /\
    analyzer.average res = average r /\ analyzer.min res = min r /\
    analyzer.max res = max r.
Proof.
  destruct (analyze_time_series (PyList [PyStr "t0"; PyNone; PyStr "t2"])
              (PyList [PyStr "1.5"; PyInt 7; PyInt 2])) as [r | e] eqn:E;
    [| vm_compute in E; discriminate].
  destruct (analyze_numbers_agrees _ _ r E) as (st & res & Hst & Hres & _ & Ha & Hmn & Hmx).
  vm_compute in Hst. injection Hst as <-.
  exists r, res. repeat split; auto.
Defined.

(** X10: [print_report] on what [analyze_numbers] returns for the same
    list ends normally exactly when the list is not empty; on the empty list
    it raises AttributeError, after the header lines. *)
Theorem print_report_needs_numbers (numbers : list spec_float)
    (results : option analyzer.summary) :
  analyzer.analyze_numbers numbers = Ok results ->
  (snd (print_report numbers results) = None <-> numbers <> []) /\
  (numbers = [] ->
   print_report numbers results = (report_header [], Some (Uncaught AttributeError))).
Proof.
  intros H. destruct numbers as [| x l].
  - injection H as <-. simpl.
    split; [split; [discriminate | congruence] | reflexivity].
  - destruct (analyze_numbers_some (x :: l)) as (res & Hres & _); [discriminate |].
    rewrite Hres in H. injection H as <-. simpl.
    split; [split; [discriminate | reflexivity] | discriminate].
Qed.

Lemma print_report_needs_numbers_witness :
  print_report [] None = (report_header [], Some (Uncaught AttributeError)).
Proof.
  apply (print_report_needs_numbers [] None); reflexivity.
Defined.

(** ** main.py: [main] *)

Lemma ask_positive_done (c : Z) (lines : list string) (out : list out_part) :
  (0 < c)%Z -> ask_positive c lines out = (inl c, lines, out).
Proof.
  intros H. apply Z.ltb_lt in H. destruct lines; simpl; now rewrite H.
Qed.

Lemma ask_positive_step (c : Z) (line : string) (rest : list string)
    (out : list out_part) :
  (c <= 0)%Z ->
  ask_positive c (line :: rest) out
  = match int_of_string line with
    | Some c' =>
        ask_positive c' rest
          (if (c' <=? 0)%Z
           then (out ++ [OText prompt_positive])
                ++ print [OText "Please enter a number greater than 0."]
           else out ++ [OText prompt_positive])
    | None =>
        ask_positive c rest
          ((out ++ [OText prompt_positive])
           ++ print [OText "Invalid input. Please enter a whole number."])
    end.
Proof.
  intros H. apply Z.ltb_ge in H. simpl. now rewrite H.
Qed.

(** The first loop only ends on a positive count. *)
Lemma ask_positive_positive (lines : list string) :
  forall c out c' left out',
    ask_positive c lines out = (inl c', left, out') -> (0 < c')%Z.
Proof.
  induction lines as [| line rest IH]; intros c out c' left out'; simpl.
  - destruct (0 <? c)%Z eqn:E; [| discriminate].
    intros [= <- _ _]. now apply Z.ltb_lt.
  - destruct (0 <? c)%Z eqn:E.
    + intros [= <- _ _]. now apply Z.ltb_lt.
    + destruct (int_of_string line) as [c0 |]; apply IH.
Qed.

Lemma parsed_floats_app (l l' : list string) :
  parsed_floats (l ++ l') = parsed_floats l ++ parsed_floats l'.
Proof.
  apply flat_map_app.
Qed.

(** Asking for one number: the lines up to the first float are consumed. *)
Lemma read_number_some (lines : list string) :
  forall f fs i out,
    parsed_floats lines = f :: fs ->
    exists used line left out',
      lines = used ++ line :: left /\
      parsed_floats used = [] /\ float_of_string line = Some f /\
      parsed_floats left = fs /\
      read_number i lines out = (inl f, left, out').
Proof.
  induction lines as [| l rest IH]; intros f fs i out H; simpl in *; [discriminate |].
  destruct (float_of_string l) as [g |] eqn:E; simpl in H.
  - injection H as -> Hfs. exists [], l, rest. eexists. repeat split; eauto.
  - destruct (IH f fs i
                ((out ++ [OText "Enter number "; OValue (py_int (i + 1)); OText ": "])
                 ++ print [OText "Invalid input. Please enter a valid number."]) H)
      as (used & line & left & out' & Heq & Hu & Hl & Hfs & Hr).
    exists (l :: used), line, left, out'. repeat split; auto.
    + simpl. now rewrite Heq.
    + simpl. now rewrite E, Hu.
Qed.

Lemma read_number_none (lines : list string) :
  forall i out,
    parsed_floats lines = [] ->
    exists out', read_number i lines out = (inr EOFError, [], out').
Proof.
  induction lines as [| l rest IH]; intros i out H; simpl in *; [eauto |].
  destruct (float_of_string l) as [g |] eqn:E; simpl in H; [discriminate |].
  apply IH, H.
Qed.

(** The [for] loop with enough floats on standard input. *)
Lemma read_numbers_enough (n : nat) :
  forall lines i numbers out,
    n <= List.length (parsed_floats lines) ->
    exists used left out',
      lines = used ++ left /\
      parsed_floats used = firstn n (parsed_floats lines) /\
      read_numbers n i numbers lines out
      = (inl (numbers ++ firstn n (parsed_floats lines)), left, out') /\
      (n = 0 -> used = []) /\
      (n <> 0 -> exists u line f, used = u ++ [line] /\ float_of_string line = Some f).
Proof.
  induction n as [| n IH]; intros lines i numbers out Hn.
  - exists [], lines, out. simpl. rewrite app_nil_r. repeat split; auto. congruence.
  - destruct (parsed_floats lines) as [| f fs] eqn:Ep; [simpl in Hn; lia |].
    destruct (read_number_some lines f fs i out Ep)
      as (used1 & line & left1 & out1 & Heq & Hu1 & Hl & Hfs & Hr).
    destruct (IH left1 (S i) (numbers ++ [f]) out1) as
      (used2 & left & out' & Heq2 & Hu2 & Hr2 & Hz & Hnz).
    { rewrite Hfs. simpl in Hn. lia. }
    exists (used1 ++ line :: used2), left, out'.
    split; [rewrite Heq, Heq2, <- app_assoc; reflexivity |].
    split.
    { change (line :: used2) with ([line] ++ used2).
      rewrite !parsed_floats_app, Hu1, Hu2, Hfs. unfold parsed_floats at 1.
      simpl. now rewrite Hl. }
    split.
    { simpl. rewrite Hr, Hr2, Hfs, <- app_assoc. reflexivity. }
    split; [congruence |]. intros _.
    destruct n as [| n'].
    + rewrite (Hz eq_refl). exists used1, line, f. auto.
    + destruct (Hnz ltac:(congruence)) as (u & line' & f' & Hu & Hf').
      exists (used1 ++ line :: u), line', f'. split; auto.
      rewrite Hu, <- app_assoc. reflexivity.
Qed.

(** The [for] loop when standard input runs out of floats. *)
Lemma read_numbers_short (n : nat) :
  forall lines i numbers out,
    List.length (parsed_floats lines) < n ->
    exists out', read_numbers n i numbers lines out = (inr EOFError, [], out').
Proof.
  induction n as [| n IH]; intros lines i numbers out Hn; [lia |].
  simpl. destruct (parsed_floats lines) as [| f fs] eqn:Ep.
  - destruct (read_number_none lines i out Ep) as (out' & ->). eauto.
  - destruct (read_number_some lines f fs i out Ep)
      as (used1 & line & left1 & out1 & Heq & Hu1 & Hl & Hfs & ->).
    apply IH. rewrite Hfs. simpl in Hn. lia.
Qed.

(** X11: when the first answer is a positive integer [c], [main] collects
    the first [c] lines that are floats, consuming standard input up to the
    line that gave the last of them; when fewer than [c] of the remaining
    lines are floats it ends with EOFError and standard input used up. *)
Theorem collect_reads_count_numbers (first : string) (rest : list string) (c : Z) :
  int_of_string first = Some c -> (0 < c)%Z ->
  (Z.to_nat c <= List.length (parsed_floats rest) ->
   exists used left out,
     rest = used ++ left /\
     collect (first :: rest)
     = (inl (firstn (Z.to_nat c) (parsed_floats rest)), left, out) /\
     parsed_floats used = firstn (Z.to_nat c) (parsed_floats rest) /\
     exists u line f, used = u ++ [line] /\ float_of_string line = Some f) /\
  (List.length (parsed_floats rest) < Z.to_nat c ->
   exists out, collect (first :: rest) = (inr EOFError, [], out)).
Proof.
  intros Hc Hpos. unfold collect. rewrite Hc, (ask_positive_done _ _ _ Hpos).
  split; intros Hn.
  - destruct (read_numbers_enough (Z.to_nat c) rest 0 [] [OText prompt_count] Hn)
      as (used & left & out & Heq & Hu & Hr & _ & Hnz).
    exists used, left, out. repeat split; auto. apply Hnz. lia.
  - apply read_numbers_short, Hn.
Qed.

Lemma collect_reads_count_numbers_witness :
  exists used left out,
    ["abc"; "1.5"; "2e1"; "x"; "7"] = used ++ left /\
    collect ("2" :: ["abc"; "1.5"; "2e1"; "x"; "7"])
    = (inl (firstn 2 (parsed_floats ["abc"; "1.5"; "2e1"; "x"; "7"])), left, out) /\
    parsed_floats used = firstn 2 (parsed_floats ["abc"; "1.5"; "2e1"; "x"; "7"]).
Proof.
  destruct (collect_reads_count_numbers "2" ["abc"; "1.5"; "2e1"; "x"; "7"] 2
              eq_refl eq_refl) as [H _].
  destruct H as (used & left & out & H1 & H2 & H3 & _).
  - vm_compute. lia.
  - exists used, left, out. auto.
Defined.

(** What a run returns and leaves on standard input does not depend on
    what was written before. *)
Lemma read_number_out (lines : list string) :
  forall i out out', fst (read_number i lines out) = fst (read_number i lines out').
Proof.
  induction lines as [| l rest IH]; intros i out out'; simpl; auto.
  destruct (float_of_string l); simpl; auto.
Qed.

Lemma read_numbers_out (n : nat) :
  forall i numbers lines out out',
    fst (read_numbers n i numbers lines out) = fst (read_numbers n i numbers lines out').
Proof.
  induction n as [| n IH]; intros i numbers lines out out'; simpl; auto.
  pose proof (read_number_out lines i out out') as H.
  destruct (read_number i lines out) as [[[num | f] rest] o].
  - destruct (read_number i lines out') as [[[num' | f'] rest'] o']; simpl in H;
      [| discriminate].
    injection H as <- <-. apply IH.
  - destruct (read_number i lines out') as [[[num' | f'] rest'] o']; simpl in H;
      [discriminate |].
    injection H as <- <-. reflexivity.
Qed.

(** The first loop passes over the lines that are not positive integers. *)
Lemma ask_positive_skips (skipped : list string) :
  Forall (fun line => not_positive line = true) skipped ->
  forall c out,
    (c <= 0)%Z ->
    (forall good n rest,
        int_of_string good = Some n -> (0 < n)%Z ->
        exists out', ask_positive c (skipped ++ good :: rest) out = (inl n, rest, out')) /\
    (exists out', ask_positive c skipped out = (inr EOFError, [], out')).
Proof.
  induction 1 as [| line skipped Hline _ IH]; intros c out Hc.
  - split.
    + intros good n rest Hg Hn. simpl app.
      rewrite (ask_positive_step _ _ _ _ Hc), Hg.
      rewrite (ask_positive_done _ _ _ Hn). eauto.
    + simpl. apply Z.ltb_ge in Hc. rewrite Hc. eauto.
  - unfold not_positive in Hline. split.
    + intros good n rest Hg Hn. simpl app.
      rewrite (ask_positive_step _ _ _ _ Hc).
      destruct (int_of_string line) as [c' |].
      * apply Z.leb_le in Hline. apply IH; auto.
      * apply IH; auto.
    + rewrite (ask_positive_step _ _ _ _ Hc).
      destruct (int_of_string line) as [c' |].
      * apply Z.leb_le in Hline. apply IH; auto.
      * apply IH; auto.
Qed.

(** X12: the first answer has to be an integer, or the ValueError of
    [int()] ends [main]; once it is one but not positive, the following
    lines are passed over until one is a positive integer, and the run then
    continues as if that line had been the first answer; with no such line
    it ends with EOFError. *)
Theorem first_answer_must_be_integer (first : string) :
  (int_of_string first = None ->
   forall rest,
     collect (first :: rest) = (inr (Uncaught ValueError), rest, [OText prompt_count])) /\
  (forall c skipped,
      int_of_string first = Some c -> (c <= 0)%Z ->
      Forall (fun line => not_positive line = true) skipped ->
      (forall good n rest,
          int_of_string good = Some n -> (0 < n)%Z ->
          fst (collect (first :: skipped ++ good :: rest)) = fst (collect (good :: rest))) /\
      fst (collect (first :: skipped)) = (inr EOFError, [])).
Proof.
  split.
  - intros H rest. unfold collect. now rewrite H.
  - intros c skipped Hc Hle Hsk.
    destruct (ask_positive_skips skipped Hsk c [OText prompt_count] Hle) as [H1 H2].
    split.
    + intros good n rest Hg Hn. unfold collect. rewrite Hc, Hg.
      destruct (H1 good n rest Hg Hn) as (out' & ->).
      rewrite (ask_positive_done _ _ _ Hn). apply read_numbers_out.
    + unfold collect. rewrite Hc. destruct H2 as (out' & ->). reflexivity.
Qed.

Lemma first_answer_must_be_integer_witness :
  collect ("two" :: ["1"]) = (inr (Uncaught ValueError), ["1"], [OText prompt_count]) /\
  fst (collect ("0" :: ["x"; "-4"] ++ "1" :: ["2.5"])) = fst (collect ("1" :: ["2.5"])) /\
  fst (collect ("0" :: ["x"; "-4"])) = (inr EOFError, []).
Proof.
  split; [| split].
  - apply (proj1 (first_answer_must_be_integer "two")). reflexivity.
  - destruct (proj2 (first_answer_must_be_integer "0") 0%Z ["x"; "-4"]) as [H _];
      [reflexivity | lia | repeat constructor |].
    apply (H "1" 1%Z ["2.5"]); [reflexivity | lia].
  - destruct (proj2 (first_answer_must_be_integer "0") 0%Z ["x"; "-4"]) as [_ H];
      [reflexivity | lia | repeat constructor |].
    exact H.
Defined.

Lemma ask_positive_quiet (lines : list string) :
  forall c out v left out',
    ask_positive c lines out = (v, left, out') ->
    ~ In (OText "No numbers to analyze.") out ->
    ~ In (OText "No numbers to analyze.") out'.
Proof.
  induction lines as [| line rest IH]; intros c out v left out'; simpl.
  - destruct (0 <? c)%Z; intros [= _ _ <-] Hq; auto.
    rewrite in_app_iff. simpl. intuition discriminate.
  - destruct (0 <? c)%Z; [intros [= _ _ <-] Hq; auto |].
    destruct (int_of_string line) as [c0 |]; intros H Hq; apply IH in H; auto.
    + destruct (c0 <=? 0)%Z; rewrite ?in_app_iff; simpl; intuition discriminate.
    + rewrite ?in_app_iff; simpl; intuition discriminate.
Qed.

Lemma read_number_quiet (lines : list string) :
  forall i out v left out',
    read_number i lines out = (v, left, out') ->
    ~ In (OText "No numbers to analyze.") out ->
    ~ In (OText "No numbers to analyze.") out'.
Proof.
  induction lines as [| line rest IH]; intros i out v left out'; simpl.
  - intros [= _ _ <-] Hq. rewrite in_app_iff. simpl. intuition discriminate.
  - destruct (float_of_string line).
    + intros [= _ _ <-] Hq. rewrite in_app_iff. simpl. intuition discriminate.
    + intros H Hq. apply IH in H; auto.
      rewrite ?in_app_iff. simpl. intuition discriminate.
Qed.

Lemma read_numbers_quiet (n : nat) :
  forall i numbers lines out v left out',
    read_numbers n i numbers lines out = (v, left, out') ->
    ~ In (OText "No numbers to analyze.") out ->
    ~ In (OText "No numbers to analyze.") out'.
Proof.
  induction n as [| n IH]; intros i numbers lines out v left out'; simpl.
  - intros [= _ _ <-]. auto.
  - destruct (read_number i lines out) as [[[num | f] rest] o] eqn:E.
    + intros H Hq. eapply IH; eauto. eapply read_number_quiet; eauto.
    + intros [= _ _ <-] Hq. eapply read_number_quiet; eauto.
Qed.

Lemma read_numbers_length (n : nat) :
  forall i numbers lines out result left out',
    read_numbers n i numbers lines out = (inl result, left, out') ->
    List.length result = List.length numbers + n.
Proof.
  induction n as [| n IH]; intros i numbers lines out result left out'; simpl.
  - intros [= <- _ _]. lia.
  - destruct (read_number i lines out) as [[[num | f] rest] o]; [| discriminate].
    intros H. apply IH in H. rewrite length_app in H. simpl in H. lia.
Qed.

Lemma collect_quiet (lines : list string) (v : list spec_float + failure)
    (left : list string) (out : list out_part) :
  collect lines = (v, left, out) -> ~ In (OText "No numbers to analyze.") out.
Proof.
  unfold collect. destruct lines as [| line rest].
  - intros [= _ _ <-]. simpl. intuition discriminate.
  - destruct (int_of_string line) as [c |].
    + destruct (ask_positive c rest [OText prompt_count]) as [[[c' | f] rest'] o] eqn:E.
      * intros H. eapply read_numbers_quiet; eauto.
        eapply ask_positive_quiet; eauto. simpl. intuition discriminate.
      * intros [= _ _ <-]. eapply ask_positive_quiet; eauto.
        simpl. intuition discriminate.
    + intros [= _ _ <-]. simpl. intuition discriminate.
Qed.

(** [main] only leaves its loops with at least one number. *)
Lemma collect_nonempty (lines : list string) (numbers : list spec_float)
    (left : list string) (out : list out_part) :
  collect lines = (inl numbers, left, out) -> numbers <> [].
Proof.
  unfold collect. destruct lines as [| line rest]; [discriminate |].
  destruct (int_of_string line) as [c |]; [| discriminate].
  destruct (ask_positive c rest [OText prompt_count]) as [[[c' | f] rest'] o] eqn:E;
    [| discriminate].
  intros H. apply ask_positive_positive in E. apply read_numbers_length in H.
  intros ->. simpl in H. lia.
Qed.

(** What [main] writes after its loops, for a list that is not empty. *)
Lemma report_some (numbers : list spec_float) :
  numbers <> [] ->
  exists res,
    analyzer.analyze_numbers numbers = Ok (Some res) /\
    report numbers
    = (print [OText "You entered the following numbers:"]
       ++ flat_map (fun num => [OValue (PyFloat num); OText " "] ++ print []) numbers
       ++ print [OText (newline ++ "Statistics:")] ++ statistics_lines res, None).
Proof.
  intros Hne. destruct (analyze_numbers_some numbers Hne) as (res & Hres & _).
  exists res. split; auto. unfold report. rewrite Hres.
  now rewrite <- !app_assoc.
Qed.

Lemma report_quiet (numbers : list spec_float) :
  numbers <> [] -> ~ In (OText "No numbers to analyze.") (fst (report numbers)).
Proof.
  intros Hne. destruct (report_some numbers Hne) as (res & _ & ->).
  cbn [fst]. unfold statistics_lines, print. intros H.
  repeat rewrite in_app_iff in H. rewrite in_flat_map in H.
  repeat match goal with
         | H : _ \/ _ |- _ => destruct H as [H | H]
         | H : exists _, _ |- _ => destruct H as (? & _ & H)
         end; cbn in H; intuition discriminate.
Qed.

(** X13: [main] never writes "No numbers to analyze.": it leaves its
    loops with at least one number, so it ends normally exactly when the
    numbers were collected, with the statistics of [analyze_numbers] as its
    last lines, and it reads nothing after the last number. *)
Theorem main_always_has_numbers (lines : list string) :
  ~ In (OText "No numbers to analyze.") (snd (main lines)) /\
  snd (fst (main lines)) = snd (fst (collect lines)) /\
  (forall f,
      fst (fst (collect lines)) = inr f ->
      main lines = (inr f, snd (fst (collect lines)), snd (collect lines))) /\
  (forall numbers,
      fst (fst (collect lines)) = inl numbers ->
      numbers <> [] /\
      exists res,
        analyzer.analyze_numbers numbers = Ok (Some res) /\
        fst (fst (main lines)) = inl tt /\
        snd (main lines)
        = snd (collect lines)
          ++ print [OText "You entered the following numbers:"]
          ++ flat_map (fun num => [OValue (PyFloat num); OText " "] ++ print []) numbers
          ++ print [OText (newline ++ "Statistics:")] ++ statistics_lines res).
Proof.
  unfold main.
  destruct (collect lines) as [[[numbers | f] left] out] eqn:E.
  - pose proof (collect_nonempty _ _ _ _ E) as Hne.
    pose proof (collect_quiet _ _ _ _ E) as Hq.
    pose proof (report_quiet numbers Hne) as Hrq.
    destruct (report_some numbers Hne) as (res & Hres & Hrep).
    rewrite Hrep in *. cbn [fst snd] in *.
    split; [| split; [reflexivity | split; [discriminate |]]].
    + intros H. apply in_app_or in H. tauto.
    + intros numbers' [= <-]. split; [exact Hne |]. exists res. auto.
  - cbn [fst snd]. split; [eapply collect_quiet; eauto |].
    split; [reflexivity |]. split; [| discriminate].
    now intros f' [= <-].
Qed.

Lemma main_always_has_numbers_witness :
  exists res,
    analyzer.analyze_numbers [S754_finite false 5629499534213120 (-51)] = Ok (Some res) /\
    fst (fst (main ["1"; "2.5"; "more"])) = inl tt /\
    snd (fst (main ["1"; "2.5"; "more"])) = ["more"].
Proof.
  destruct (main_always_has_numbers ["1"; "2.5"; "more"]) as (_ & Hleft & _ & H).
  destruct (H [S754_finite false 5629499534213120 (-51)]) as (_ & res & H1 & H2 & _).
  - vm_compute. reflexivity.
  - exists res. split; [exact H1 |]. split; [exact H2 |].
    rewrite Hleft. vm_compute. reflexivity.
Defined.

(** ** The two helpers of weather_analysis.py *)

(** X14: the guards of the two helpers keep StatisticsError away, and
    nothing else.  [calculate_median] returns on every list, None on the
    empty list only.  [calculate_standard_deviation] returns None below two
    values; on two or more it raises AttributeError exactly when an
    infinity or a NaN is among them, and otherwise returns a float or
    raises OverflowError. *)
Theorem helpers_outcomes (temperatures : list spec_float) :
  (exists m, calculate_median temperatures = Ok m /\
             (m = None <-> temperatures = [])) /\
  (List.length temperatures < 2 ->
   calculate_standard_deviation temperatures = Ok None) /\
  (2 <= List.length temperatures ->
   (calculate_standard_deviation temperatures = Raise AttributeError
    <-> float_values temperatures = None) /\
   ((exists s, calculate_standard_deviation temperatures = Ok (Some s))
    \/ calculate_standard_deviation temperatures = Raise AttributeError
    \/ calculate_standard_deviation temperatures = Raise OverflowError)).
Proof.
  split; [| split].
  - destruct temperatures as [| x l].
    + exists None. simpl. tauto.
    + destruct (calculate_median_ok (x :: l)) as (m & Hm); [discriminate |].
      exists (Some m). split; [exact Hm |]. split; discriminate.
  - apply calculate_standard_deviation_short.
  - intros H2.
    destruct (calculate_standard_deviation_outcome temperatures)
      as [[Hl _] | [(_ & Hn & Hsd) | (_ & Hn & [(s & Hsd) | Hsd])]]; [lia | | |].
    + split; [tauto | auto].
    + split; [| eauto]. rewrite Hsd. split; [discriminate | congruence].
    + split; [| auto]. rewrite Hsd. split; [discriminate | congruence].
Qed.

Lemma helpers_outcomes_witness :
  (exists m, calculate_median [float_of_Z 3; S754_nan; float_of_Z 1] = Ok m /\ m <> None) /\
  calculate_standard_deviation [S754_infinity false] = Ok None /\
  calculate_standard_deviation [S754_infinity false; float_of_Z 20] = Raise AttributeError.
Proof.
  split; [| split].
  - destruct (helpers_outcomes [float_of_Z 3; S754_nan; float_of_Z 1])
      as [(m & Hm & Hnone) _].
    exists m. split; [exact Hm |]. intros E. apply Hnone in E. discriminate.
  - destruct (helpers_outcomes [S754_infinity false]) as (_ & H1 & _).
    apply H1. simpl. lia.
  - destruct (helpers_outcomes [S754_infinity false; float_of_Z 20]) as (_ & _ & H2).
    destruct (H2 ltac:(simpl; lia)) as [[_ H] _]. apply H. reflexivity.
Defined.

(** ** Conversion beforehand *)

Lemma as_float_none (temp : pyval) : is_none (as_float temp) = is_none temp.
Proof.
  unfold as_float. destruct temp; simpl; auto.
  - destruct (is_infinite (float_of_Z z)); reflexivity.
  - destruct (float_of_string s); reflexivity.
Qed.

Lemma as_float_float (temp : pyval) : py_float (as_float temp) = py_float temp.
Proof.
  unfold as_float. destruct (py_float temp) eqn:E; simpl; auto.
Qed.

Lemma as_float_rejected (temp : pyval) (e : exn) :
  py_float temp = Raise e -> as_float temp = temp.
Proof.
  unfold as_float. now intros ->.
Qed.

Lemma process_pair_as_float (i : nat) (t temp : pyval) (st : loop_state) :
  process_pair i t (as_float temp) st = process_pair i t temp st.
Proof.
  unfold process_pair. rewrite as_float_none, as_float_float.
  destruct (is_none t || is_none temp); auto.
  destruct (py_float temp) as [f | e] eqn:E; simpl; auto.
  now rewrite (as_float_rejected _ _ E).
Qed.

Lemma scan_pairs_as_float (ts : list pyval) :
  forall ps i st,
    scan_pairs i (combine ts (map as_float ps)) st = scan_pairs i (combine ts ps) st.
Proof.
  induction ts as [| t ts IH]; intros [| p ps] i st; simpl; auto.
  rewrite process_pair_as_float.
  destruct (process_pair i t p st); simpl; auto.
Qed.

(** X15: converting the temperatures beforehand changes nothing.  The
    call on the list where each temperature [float()] accepts is replaced by
    its float has the same outcome, result or exception. *)
Theorem conversion_beforehand (times temperatures : pyval) (ts ps : list pyval) :
  seq_items times = Some ts -> seq_items temperatures = Some ps ->
  analyze_time_series times (PyList (map as_float ps))
  = analyze_time_series times temperatures.
Proof.
  intros Hts Hps.
  rewrite (analyze_spec times (PyList (map as_float ps)) ts (map as_float ps) Hts eq_refl).
  rewrite (analyze_spec _ _ _ _ Hts Hps), length_map.
  pose proof (scan_pairs_as_float ts ps 0 loop_init) as Hs.
  destruct ts as [| t ts], ps as [| p ps]; simpl combine in *; auto.
  cbv beta iota. now rewrite Hs.
Qed.

Lemma conversion_beforehand_witness :
  analyze_time_series (PyList [PyStr "t0"; PyStr "t1"; PyNone])
                      (PyList [PyFloat (S754_finite false 6755399441055744 (-52));
                               PyNone; PyStr "abc"])
  = analyze_time_series (PyList [PyStr "t0"; PyStr "t1"; PyNone])
                        (PyTuple [PyStr " 1.5 "; PyNone; PyStr "abc"]).
Proof.
  apply (conversion_beforehand (PyList [PyStr "t0"; PyStr "t1"; PyNone])
           (PyTuple [PyStr " 1.5 "; PyNone; PyStr "abc"])
           [PyStr "t0"; PyStr "t1"; PyNone] [PyStr " 1.5 "; PyNone; PyStr "abc"]);
    reflexivity.
Defined.
